(** * Liquidity provision ABCI application: rounds and transition table

    A shallow embedding of
    [packages/valory/skills/liquidity_provision/rounds.py]:
    the [Event] enumeration, the [PeriodState] accessors, the
    [end_block] methods of the rounds and the static tables of
    [LiquidityRebalancingAbciApp]. *)

From Stdlib Require Import QArith Ascii String.
From stdpp Require Import gmap strings list fin_maps finite.

Local Open Scope string_scope.

(** ** Event vocabulary ([class Event(Enum)]) *)

Inductive Event : Set :=
  | DONE
  | DONE_ENTER
  | DONE_EXIT
  | DONE_SWAP_BACK
  | EXIT
  | ROUND_TIMEOUT
  | NO_MAJORITY
  | RESET_TIMEOUT.

Definition Event_value (e : Event) : string :=
  match e with
  | DONE => "done"
  | DONE_ENTER => "done_enter"
  | DONE_EXIT => "done_exit"
  | DONE_SWAP_BACK => "done_swap_back"
  | EXIT => "exit"
  | ROUND_TIMEOUT => "round_timeout"
  | NO_MAJORITY => "no_majority"
  | RESET_TIMEOUT => "reset_timeout"
  end.

#[global] Instance Event_eq_dec : EqDecision Event.
Proof. solve_decision. Defined.

Definition Event_all : list Event :=
  [DONE; DONE_ENTER; DONE_EXIT; DONE_SWAP_BACK;
   EXIT; ROUND_TIMEOUT; NO_MAJORITY; RESET_TIMEOUT].

#[global, refine] Instance Event_finite : Finite Event :=
  {| enum := Event_all |}.
Proof.
  - compute_done.
  - intros []; compute_done.
Defined.

(** ** Round classes

    The eight concrete round classes of the module.  The transition
    table is keyed by the classes themselves, so they form an
    enumeration here. *)

Inductive RoundCls : Set :=
  | StrategyEvaluationRound
  | SleepRound
  | EnterPoolTransactionHashRound
  | FinishedEnterPoolTransactionHashRound
  | ExitPoolTransactionHashRound
  | FinishedExitPoolTransactionHashRound
  | SwapBackTransactionHashRound
  | FinishedSwapBackTransactionHashRound.

Definition round_id (c : RoundCls) : string :=
  match c with
  | StrategyEvaluationRound => "strategy_evaluation"
  | SleepRound => "sleep"
  | EnterPoolTransactionHashRound => "enter_pool_tx_hash"
  | FinishedEnterPoolTransactionHashRound => "finished_enter_pool_hash"
  | ExitPoolTransactionHashRound => "exit_pool_tx_hash"
  | FinishedExitPoolTransactionHashRound => "finished_exit_pool_hash"
  | SwapBackTransactionHashRound => "swap_back_tx_hash"
  | FinishedSwapBackTransactionHashRound => "finished_swap_back_hash"
  end.

#[global] Instance RoundCls_eq_dec : EqDecision RoundCls.
Proof. solve_decision. Defined.

Definition RoundCls_all : list RoundCls :=
  [StrategyEvaluationRound; SleepRound;
   EnterPoolTransactionHashRound; FinishedEnterPoolTransactionHashRound;
   ExitPoolTransactionHashRound; FinishedExitPoolTransactionHashRound;
   SwapBackTransactionHashRound; FinishedSwapBackTransactionHashRound].

#[global, refine] Instance RoundCls_finite : Finite RoundCls :=
  {| enum := RoundCls_all |}.
Proof.
  - compute_done.
  - intros []; compute_done.
Defined.

(** ** The application tables ([class LiquidityRebalancingAbciApp]) *)

Module LiquidityRebalancingAbciApp.

Definition initial_round_cls : RoundCls := StrategyEvaluationRound.

(** The dict literal of the source, entry by entry and in its order. *)
Definition transition_function : gmap RoundCls (gmap Event RoundCls) :=
  list_to_map
    [ (StrategyEvaluationRound,
        list_to_map
          [ (DONE, SleepRound);
            (DONE_ENTER, EnterPoolTransactionHashRound);
            (DONE_EXIT, ExitPoolTransactionHashRound);
            (DONE_SWAP_BACK, SwapBackTransactionHashRound);
            (ROUND_TIMEOUT, StrategyEvaluationRound);
            (NO_MAJORITY, StrategyEvaluationRound) ]);
      (SleepRound,
        list_to_map
          [ (DONE, StrategyEvaluationRound);
            (ROUND_TIMEOUT, StrategyEvaluationRound);
            (NO_MAJORITY, StrategyEvaluationRound) ]);
      (EnterPoolTransactionHashRound,
        list_to_map
          [ (DONE, FinishedEnterPoolTransactionHashRound);
            (ROUND_TIMEOUT, StrategyEvaluationRound);
            (NO_MAJORITY, StrategyEvaluationRound) ]);
      (FinishedEnterPoolTransactionHashRound, ∅);
      (ExitPoolTransactionHashRound,
        list_to_map
          [ (DONE, FinishedExitPoolTransactionHashRound);
            (ROUND_TIMEOUT, StrategyEvaluationRound);
            (NO_MAJORITY, StrategyEvaluationRound) ]);
      (FinishedExitPoolTransactionHashRound, ∅);
      (SwapBackTransactionHashRound,
        list_to_map
          [ (DONE, FinishedSwapBackTransactionHashRound);
            (ROUND_TIMEOUT, StrategyEvaluationRound);
            (NO_MAJORITY, StrategyEvaluationRound) ]);
      (FinishedSwapBackTransactionHashRound, ∅) ].

Definition final_states : gset RoundCls :=
  {[ FinishedEnterPoolTransactionHashRound;
     FinishedExitPoolTransactionHashRound;
     FinishedSwapBackTransactionHashRound ]}.

(** [5.0] and [30.0] are exactly representable; they are kept as the
    rationals they denote. *)
Definition event_to_timeout : gmap Event Q :=
  list_to_map [ (EXIT, 5 # 1); (ROUND_TIMEOUT, 30 # 1) ].

(** Lookup of the next round class for a (round, event) pair, the way
    the runtime consults the table. *)
Definition next_round (c : RoundCls) (e : Event) : option RoundCls :=
  transition_function !! c ≫= λ edges, edges !! e.

(** Successive rounds along a sequence of events; [None] as soon as an
    event is not listed for the current round. *)
Fixpoint run (c : RoundCls) (es : list Event) : option RoundCls :=
  match es with
  | [] => Some c
  | e :: es' => next_round c e ≫= λ c', run c' es'
  end.

End LiquidityRebalancingAbciApp.

Import LiquidityRebalancingAbciApp.

(** ** Python values, exceptions and methods *)

(** Exceptions a method of this module can raise. *)
Inductive exn : Set :=
  | JSONDecodeError
  | KeyError (k : string)
  | TypeError
  | KeyNotFound (k : string)
  | NoVotes.

(** A method of a class [Self]: it receives the instance, may change it,
    and either raises or returns. *)
Definition Method (Self A : Type) : Type := Self → Self * (exn + A).

Definition returns {Self A} (x : A) : Method Self A := λ self, (self, inr x).
Definition raise {Self A} (e : exn) : Method Self A := λ self, (self, inl e).
Definition this {Self} : Method Self Self := λ self, (self, inr self).
Definition bind {Self A B} (m : Method Self A) (k : A → Method Self B)
  : Method Self B :=
  λ self, match m self with
          | (self', inr x) => k x self'
          | (self', inl e) => (self', inl e)
          end.
Definition try {Self A} (r : exn + A) : Method Self A :=
  match r with inl e => raise e | inr x => returns x end.

Declare Scope method_scope.
Delimit Scope method_scope with method.
Notation "'let!' x ':=' m 'in' k" := (bind m (λ x, k))
  (at level 10, x name, m at level 100, k at level 200,
   format "'[' 'let!'  x  ':='  m  'in'  '/' k ']'") : method_scope.

(** Calling a method [k] times in a row on the same instance, collecting
    what each call returned. *)
Fixpoint calls {Self A} (k : nat) (m : Method Self A) (self : Self)
  : Self * list (exn + A) :=
  match k with
  | O => (self, [])
  | S k' => let '(self', r) := m self in
            let '(self'', rs) := calls k' m self' in
            (self'', r :: rs)
  end.

Section Values.

(** Python values the rounds store or compare but never look into
    (numbers, lists, nested objects, [None]). *)
Context {V : Type} `{!EqDecision V}.

Inductive pyval : Type :=
  | PStr (s : string)
  | POther (v : V).

#[global] Instance pyval_eq_dec : EqDecision pyval.
Proof. solve_decision. Defined.

(** [x == s] for a string literal [s]: a value that is not a [str]
    never equals one. *)
Definition eq_str (x : pyval) (s : string) : bool :=
  match x with
  | PStr t => bool_decide (t = s)
  | POther _ => false
  end.

(** What [json.loads] may return: an object ([dict]) or anything else. *)
Inductive pyobj : Type :=
  | PDict (d : gmap string pyval)
  | PScalar (x : pyval).

(** [o[k]] for a string key [k]: [KeyError] on a dict without the key,
    [TypeError] on a [str], a number, a list, ... *)
Definition getitem (o : pyobj) (k : string) : exn + pyval :=
  match o with
  | PDict d => match d !! k with
               | Some x => inr x
               | None => inl (KeyError k)
               end
  | PScalar _ => inl TypeError
  end.

End Values.

Arguments pyval : clear implicits.
Arguments pyobj : clear implicits.

(** ** Payloads and the collection

    [packages/valory/skills/liquidity_provision/payloads.py] and the base
    class [CollectSameUntilThresholdRound] are imported by the module. *)

(** Modelled from the spec: the transaction-hash payload of
    [payloads.py]; its agreed attribute [tx_hash] carries the JSON text
    of an object with fields [tx_hash] and [tx_data]. *)
Record TransactionHashPayload : Type := {
  tx_sender : string;
  tx_hash : string;
}.

#[global] Instance TransactionHashPayload_eq_dec :
  EqDecision TransactionHashPayload.
Proof. solve_decision. Defined.

(** Modelled from the spec: the strategy payload of [payloads.py]; its
    agreed attribute [strategy] is an object with at least an [action]
    field. *)
Record StrategyEvaluationPayload (V : Type) : Type := {
  strategy_sender : string;
  strategy : gmap string (pyval V);
}.
Arguments strategy_sender {V} _.
Arguments strategy {V} _.

(** Modelled from the spec: the enumeration [StrategyType] of
    [payloads.py] with the wire values ["wait"], ["enter"], ["exit"] and
    ["swap_back"]. *)
Module StrategyType.
Inductive t : Set := WAIT | ENTER | EXIT | SWAP_BACK.
Definition value (a : t) : string :=
  match a with
  | WAIT => "wait"
  | ENTER => "enter"
  | EXIT => "exit"
  | SWAP_BACK => "swap_back"
  end.
End StrategyType.

Section Votes.

Context {A : Type} `{!EqDecision A}.

(** Number of submissions equal to [v]. *)
Definition payloads_count (votes : list A) (v : A) : Z :=
  Z.of_nat (length (filter (λ w, w = v) votes)).

(** Count of the most frequent value; [0] without submissions. *)
Definition largest_nb_votes (votes : list A) : Z :=
  foldr Z.max 0%Z (payloads_count votes <$> votes).

(** The most frequent submitted value (the earliest one on a tie). *)
Definition most_common (votes : list A) : option A :=
  list_find (λ v, payloads_count votes v = largest_nb_votes votes) votes
    ≫= λ p, Some p.2.

End Votes.

(** Modelled from the spec: the super-majority rule of the base class,
    the smallest count above two thirds of the participants
    (3 for 4 participants). *)
Definition consensus_threshold (nb_participants : Z) : Z :=
  (2 * nb_participants / 3 + 1)%Z.

Section Collection.

(** [P] is the payload class, [A] the type of its agreed attribute
    ([payload_attribute]). *)
Context {P A : Type} `{!EqDecision A} (attribute : P → A).

(** The submitted values of the agreed attribute, one per participant. *)
Definition votes (collection : gmap string P) : list A :=
  attribute <$> (map_to_list collection).*2.

(** Modelled from the spec: [threshold_reached] of the base class, the
    most frequent value has at least [threshold] submissions. *)
Definition threshold_reached
    (collection : gmap string P) (nb_participants : Z) : bool :=
  bool_decide
    (consensus_threshold nb_participants
     ≤ largest_nb_votes (votes collection))%Z.

(** Modelled from the spec: [most_voted_payload] of the base class, the
    most frequent value among the current submissions. *)
Definition most_voted_payload (collection : gmap string P) : exn + A :=
  match most_common (votes collection) with
  | Some v => inr v
  | None => inl NoVotes
  end.

(** Modelled from the spec: [is_majority_possible] of the base class;
    a majority is impossible when the current maximum count plus the
    participants that have not submitted yet stays below the
    threshold. *)
Definition is_majority_possible
    (collection : gmap string P) (nb_participants : Z) : bool :=
  negb (largest_nb_votes (votes collection)
        + (nb_participants - Z.of_nat (length (votes collection)))
        <? consensus_threshold nb_participants)%Z.

End Collection.

(** ** The period state ([class PeriodState(BasePeriodState)]) *)

Section PeriodState.

Context {V : Type} `{!EqDecision V}.

(** What the rounds of this module store under a key of the state. *)
Inductive dbval : Type :=
  | DVal (x : pyval V)
  | DDict (d : gmap string (pyval V))
  | DTxHashes (c : gmap string TransactionHashPayload)
  | DStrategies (c : gmap string (StrategyEvaluationPayload V)).

(** Modelled from the spec: [BasePeriodState], a key-value store
    together with the participant count [nb_participants]. *)
Record PeriodState : Type := {
  nb_participants : Z;
  db : gmap string dbval;
}.

(** Modelled from the spec: [update] returns a new snapshot with the
    given keys written, in the order of the keyword arguments. *)
Definition update (kwargs : list (string * dbval)) (state : PeriodState)
  : PeriodState :=
  {| nb_participants := nb_participants state;
     db := foldl (λ m kv, <[kv.1 := kv.2]> m) (db state) kwargs |}.

(** Modelled from the spec: [db.get_strict(key)] fails on a missing
    key. *)
Definition get_strict (state : PeriodState) (key : string) : exn + dbval :=
  match db state !! key with
  | Some x => inr x
  | None => inl (KeyNotFound key)
  end.

(** Modelled from the spec: [db.get(key, default)]; Python's [None] is
    [None]. *)
Definition get (state : PeriodState) (key : string)
    (default : option dbval) : option dbval :=
  match db state !! key with
  | Some x => Some x
  | None => default
  end.

(** The properties of the class; [cast] does nothing at run time. *)
Definition most_voted_strategy (self : PeriodState) : exn + dbval :=
  get_strict self "most_voted_strategy".
Definition most_voted_transfers (self : PeriodState) : exn + dbval :=
  get_strict self "most_voted_transfers".
Definition participant_to_strategy (self : PeriodState) : exn + dbval :=
  get_strict self "participant_to_strategy".
Definition participant_to_tx_hash (self : PeriodState) : exn + dbval :=
  get_strict self "participant_to_tx_hash".
Definition most_voted_keeper_address (self : PeriodState) : exn + dbval :=
  get_strict self "most_voted_keeper_address".
Definition safe_contract_address (self : PeriodState) : exn + dbval :=
  get_strict self "safe_contract_address".
Definition multisend_contract_address (self : PeriodState) : exn + dbval :=
  get_strict self "multisend_contract_address".
Definition router_contract_address (self : PeriodState) : exn + dbval :=
  get_strict self "router_contract_address".
Definition participant_to_signature (self : PeriodState) : exn + dbval :=
  get_strict self "participant_to_signature".
Definition most_voted_tx_hash (self : PeriodState) : exn + dbval :=
  get_strict self "most_voted_tx_hash".
Definition most_voted_tx_data (self : PeriodState) : exn + dbval :=
  get_strict self "most_voted_tx_data".
Definition final_tx_hash (self : PeriodState) : exn + dbval :=
  get_strict self "final_tx_hash".
Definition safe_operation (self : PeriodState)
  : exn + option dbval :=
  inr (get self "safe_operation" None).

(** The twelve accessors that read their key with [get_strict], each
    with the key it reads. *)
Definition strict_accessors
  : list (string * (PeriodState → exn + dbval)) :=
  [ ("most_voted_strategy", most_voted_strategy);
    ("most_voted_transfers", most_voted_transfers);
    ("participant_to_strategy", participant_to_strategy);
    ("participant_to_tx_hash", participant_to_tx_hash);
    ("most_voted_keeper_address", most_voted_keeper_address);
    ("safe_contract_address", safe_contract_address);
    ("multisend_contract_address", multisend_contract_address);
    ("router_contract_address", router_contract_address);
    ("participant_to_signature", participant_to_signature);
    ("most_voted_tx_hash", most_voted_tx_hash);
    ("most_voted_tx_data", most_voted_tx_data);
    ("final_tx_hash", final_tx_hash) ].

End PeriodState.

Arguments dbval : clear implicits.
Arguments PeriodState : clear implicits.

(** ** Rounds *)

(** [class LiquidityProvisionAbstractRound]: a round gives access to the
    period state it holds. *)
Class LiquidityProvisionAbstractRound (V Self : Type) := {
  period_state : Self → PeriodState V;
}.

Definition _return_no_majority_event
    {V Self} `{!LiquidityProvisionAbstractRound V Self}
  : Method Self (PeriodState V * Event) :=
  (let! self := this in
   returns (period_state self, NO_MAJORITY))%method.

Module TransactionHashBaseRound.
Section WithValues.

Context {V : Type} `{!EqDecision V}.

(** [json.loads] of the standard library; [None] when it raises
    [JSONDecodeError]. *)
Variable json_loads : string → option (pyobj V).

(** An instance: the class it was created from (the base class has
    three subclasses that only set [round_id]), the period state and
    the payloads collected so far. *)
Record t : Type := {
  cls : RoundCls;
  _state : PeriodState V;
  collection : gmap string TransactionHashPayload;
}.

#[global] Instance abstract_round : LiquidityProvisionAbstractRound V t :=
  {| period_state := _state |}.

(** The same instance seen as an instance of another subclass. *)
Definition as_cls (c : RoundCls) (self : t) : t :=
  {| cls := c; _state := _state self; collection := collection self |}.

(** [round_id] of the base class itself; every subclass overrides it. *)
Definition base_round_id : string := "tx_hash".

Definition loads (text : string) : exn + pyobj V :=
  match json_loads text with
  | Some o => inr o
  | None => inl JSONDecodeError
  end.

Definition end_block : Method t (option (PeriodState V * Event)) :=
  (let! self := this in
   if threshold_reached tx_hash (collection self)
        (nb_participants (period_state self))
   then
     let! payload := try (most_voted_payload tx_hash (collection self)) in
     let! dict_ := try (loads payload) in
     let! hash := try (getitem dict_ "tx_hash") in
     let! data := try (getitem dict_ "tx_data") in
     let state :=
       update [ ("participant_to_tx_hash", DTxHashes (collection self));
                ("most_voted_tx_hash", DVal hash);
                ("most_voted_tx_data", DVal data) ]
              (period_state self) in
     returns (Some (state, DONE))
   else if negb (is_majority_possible tx_hash (collection self)
                   (nb_participants (period_state self)))
   then
     let! r := _return_no_majority_event in
     returns (Some r)
   else returns None)%method.

End WithValues.
End TransactionHashBaseRound.

Module StrategyEvaluationRound_.
Section WithValues.

Context {V : Type} `{!EqDecision V}.

Record t : Type := {
  _state : PeriodState V;
  collection : gmap string (StrategyEvaluationPayload V);
}.

#[global] Instance abstract_round : LiquidityProvisionAbstractRound V t :=
  {| period_state := _state |}.

(** [self.most_voted_payload["action"]]: the agreed strategy is a dict. *)
Definition action (payload : gmap string (pyval V)) : Method t (pyval V) :=
  try (getitem (PDict payload) "action").

Definition end_block : Method t (option (PeriodState V * Event)) :=
  (let! self := this in
   if threshold_reached strategy (collection self)
        (nb_participants (period_state self))
   then
     let! payload := try (most_voted_payload strategy (collection self)) in
     let state :=
       update [ ("participant_to_strategy", DStrategies (collection self));
                ("most_voted_strategy", DDict payload) ]
              (period_state self) in
     let event := RESET_TIMEOUT in
     let! a := action payload in
     if eq_str a (StrategyType.value StrategyType.WAIT)
     then returns (Some (state, DONE))
     else
       let! a := action payload in
       if eq_str a (StrategyType.value StrategyType.ENTER)
       then returns (Some (state, DONE_ENTER))
       else
         let! a := action payload in
         if eq_str a (StrategyType.value StrategyType.EXIT)
         then returns (Some (state, DONE_EXIT))
         else
           let! a := action payload in
           if eq_str a (StrategyType.value StrategyType.SWAP_BACK)
           then returns (Some (state, DONE_SWAP_BACK))
           else returns (Some (state, event))
   else if negb (is_majority_possible strategy (collection self)
                   (nb_participants (period_state self)))
   then
     let! r := _return_no_majority_event in
     returns (Some r)
   else returns None)%method.

End WithValues.
End StrategyEvaluationRound_.

Module SleepRound_.
Section WithValues.

Context {V : Type}.

(** Any payload class: the methods never look at the payload. *)
Context {BaseTxPayload : Type}.

Record t : Type := {
  _state : PeriodState V;
}.

#[global] Instance abstract_round : LiquidityProvisionAbstractRound V t :=
  {| period_state := _state |}.

Definition check_payload (payload : BaseTxPayload) : Method t unit :=
  returns ().

Definition process_payload (payload : BaseTxPayload) : Method t unit :=
  returns ().

Definition end_block : Method t (option (PeriodState V * Event)) :=
  (let! self := this in
   returns (Some (period_state self, DONE)))%method.

(** The runtime delivering a sequence of payloads: each one is checked
    and then processed; the first exception stops the delivery. *)
Fixpoint deliver (payloads : list BaseTxPayload) : Method t unit :=
  match payloads with
  | [] => returns ()
  | p :: ps =>
      (let! _ := check_payload p in
       let! _ := process_payload p in
       deliver ps)%method
  end.

End WithValues.
End SleepRound_.

(** ** A decoder for flat JSON objects

    The payloads of this skill are JSON objects whose fields are strings.
    [FlatJson.loads] decodes exactly that fragment (no escapes, no
    nesting) and is the instance of [json.loads] the rounds are run with
    on concrete payloads. *)

Module FlatJson.
Section WithValues.

Context {V : Type}.

Definition quote_char : ascii := ascii_of_nat 34.
Definition backslash : ascii := ascii_of_nat 92.

(** [s] between double quotes. *)
Definition quoted (s : string) : string :=
  String quote_char (s +:+ String quote_char "").

Definition is_ws (a : ascii) : bool :=
  bool_decide (a = " "%char) || bool_decide (a = ascii_of_nat 10)
  || bool_decide (a = ascii_of_nat 13) || bool_decide (a = ascii_of_nat 9).

Fixpoint skip_ws (l : list ascii) : list ascii :=
  match l with
  | a :: l' => if is_ws a then skip_ws l' else l
  | [] => []
  end.

(** The characters up to the closing quote, and what follows it. *)
Fixpoint string_body (l : list ascii) : option (string * list ascii) :=
  match l with
  | [] => None
  | a :: l' =>
      if bool_decide (a = quote_char) then Some ("", l')
      else if bool_decide (a = backslash) then None
      else match string_body l' with
           | Some (s, rest) => Some (String a s, rest)
           | None => None
           end
  end.

Definition expect (c : ascii) (l : list ascii) : option (list ascii) :=
  match skip_ws l with
  | a :: l' => if bool_decide (a = c) then Some l' else None
  | [] => None
  end.

Definition string_lit (l : list ascii) : option (string * list ascii) :=
  expect quote_char l ≫= string_body.

(** The members of an object after its opening brace; a repeated key
    keeps its last value. *)
Fixpoint members (fuel : nat) (l : list ascii)
    (acc : gmap string (pyval V)) : option (gmap string (pyval V)) :=
  match fuel with
  | O => None
  | S fuel' =>
      '(k, l1) ← string_lit l;
      l2 ← expect ":"%char l1;
      '(v, l3) ← string_lit l2;
      let acc' := <[k := PStr v]> acc in
      match skip_ws l3 with
      | a :: l4 =>
          if bool_decide (a = ","%char) then members fuel' l4 acc'
          else if bool_decide (a = "}"%char)
               then match skip_ws l4 with
                    | [] => Some acc'
                    | _ :: _ => None
                    end
               else None
      | [] => None
      end
  end.

Definition loads (text : string) : option (pyobj V) :=
  l ← expect "{"%char (list_ascii_of_string text);
  match expect "}"%char l with
  | Some rest => match skip_ws rest with
                 | [] => Some (PDict ∅)
                 | _ :: _ => None
                 end
  | None => PDict <$> members (length l) l ∅
  end.

End WithValues.
End FlatJson.

(** ** Concrete rounds

    Four participants; numbers are the only opaque values. *)

Module Scenario.

Definition agents : list string := ["agent_0"; "agent_1"; "agent_2"; "agent_3"].

Definition initial_state : PeriodState Z :=
  {| nb_participants := 4; db := ∅ |}.

(** The JSON text of an object with [tx_hash] 0xabc and [tx_data] 0x01. *)
Definition tx_text : string :=
  "{" +:+ FlatJson.quoted "tx_hash" +:+ ":" +:+ FlatJson.quoted "0xabc"
  +:+ "," +:+ FlatJson.quoted "tx_data" +:+ ":" +:+ FlatJson.quoted "0x01"
  +:+ "}".

Definition tx_collection (senders : list string)
  : gmap string TransactionHashPayload :=
  list_to_map
    ((λ a, (a, {| tx_sender := a; tx_hash := tx_text |})) <$> senders).

(** All four agents have sent the same transaction hash payload to an
    [EnterPoolTransactionHashRound]. *)
Definition enter_pool_round : TransactionHashBaseRound.t (V:=Z) :=
  {| TransactionHashBaseRound.cls := EnterPoolTransactionHashRound;
     TransactionHashBaseRound._state := initial_state;
     TransactionHashBaseRound.collection := tx_collection agents |}.

(** Only one agent has sent its transaction hash payload. *)
Definition pending_tx_round : TransactionHashBaseRound.t (V:=Z) :=
  {| TransactionHashBaseRound.cls := ExitPoolTransactionHashRound;
     TransactionHashBaseRound._state := initial_state;
     TransactionHashBaseRound.collection := tx_collection ["agent_0"] |}.

Definition strategy_of (action : string) : gmap string (pyval Z) :=
  {[ "action" := PStr action ]}.

Definition strategy_collection (actions : list (string * string))
  : gmap string (StrategyEvaluationPayload Z) :=
  list_to_map
    ((λ '(a, action),
       (a, {| strategy_sender := a; strategy := strategy_of action |}))
     <$> actions).

(** Three agents voted [enter], one voted [exit]. *)
Definition strategy_round : StrategyEvaluationRound_.t (V:=Z) :=
  {| StrategyEvaluationRound_._state := initial_state;
     StrategyEvaluationRound_.collection :=
       strategy_collection
         [ ("agent_0", "enter"); ("agent_1", "enter");
           ("agent_2", "enter"); ("agent_3", "exit") ] |}.

(** Two agents voted [enter], two voted [exit]: no value can reach three
    votes any more. *)
Definition split_round : StrategyEvaluationRound_.t (V:=Z) :=
  {| StrategyEvaluationRound_._state := initial_state;
     StrategyEvaluationRound_.collection :=
       strategy_collection
         [ ("agent_0", "enter"); ("agent_1", "enter");
           ("agent_2", "exit"); ("agent_3", "exit") ] |}.

(** Only two agents have voted so far. *)
Definition open_round : StrategyEvaluationRound_.t (V:=Z) :=
  {| StrategyEvaluationRound_._state := initial_state;
     StrategyEvaluationRound_.collection :=
       strategy_collection [ ("agent_0", "enter"); ("agent_1", "enter") ] |}.

Definition sleep_round : SleepRound_.t (V:=Z) :=
  {| SleepRound_._state := initial_state |}.

(** Four agents that all sent the transaction hash payload [text]. *)
Definition tx_round_with (text : string) : TransactionHashBaseRound.t (V:=Z) :=
  {| TransactionHashBaseRound.cls := SwapBackTransactionHashRound;
     TransactionHashBaseRound._state := initial_state;
     TransactionHashBaseRound.collection :=
       list_to_map
         ((λ a, (a, {| tx_sender := a; tx_hash := text |})) <$> agents) |}.

(** Four agents that all sent the strategy [d]. *)
Definition strategy_round_with (d : gmap string (pyval Z))
  : StrategyEvaluationRound_.t (V:=Z) :=
  {| StrategyEvaluationRound_._state := initial_state;
     StrategyEvaluationRound_.collection :=
       list_to_map
         ((λ a, (a, {| strategy_sender := a; strategy := d |})) <$> agents) |}.

End Scenario.


(** * Properties *)

(** ** The transition table *)

Module TableFacts.

(** The table, evaluated once per round class. *)
Lemma transition_function_lookup c :
  transition_function !! c
  = Some (match c with
          | StrategyEvaluationRound =>
              list_to_map
                [ (DONE, SleepRound);
                  (DONE_ENTER, EnterPoolTransactionHashRound);
                  (DONE_EXIT, ExitPoolTransactionHashRound);
                  (DONE_SWAP_BACK, SwapBackTransactionHashRound);
                  (ROUND_TIMEOUT, StrategyEvaluationRound);
                  (NO_MAJORITY, StrategyEvaluationRound) ]
          | SleepRound =>
              list_to_map
                [ (DONE, StrategyEvaluationRound);
                  (ROUND_TIMEOUT, StrategyEvaluationRound);
                  (NO_MAJORITY, StrategyEvaluationRound) ]
          | EnterPoolTransactionHashRound =>
              list_to_map
                [ (DONE, FinishedEnterPoolTransactionHashRound);
                  (ROUND_TIMEOUT, StrategyEvaluationRound);
                  (NO_MAJORITY, StrategyEvaluationRound) ]
          | ExitPoolTransactionHashRound =>
              list_to_map
                [ (DONE, FinishedExitPoolTransactionHashRound);
                  (ROUND_TIMEOUT, StrategyEvaluationRound);
                  (NO_MAJORITY, StrategyEvaluationRound) ]
          | SwapBackTransactionHashRound =>
              list_to_map
                [ (DONE, FinishedSwapBackTransactionHashRound);
                  (ROUND_TIMEOUT, StrategyEvaluationRound);
                  (NO_MAJORITY, StrategyEvaluationRound) ]
          | FinishedEnterPoolTransactionHashRound
          | FinishedExitPoolTransactionHashRound
          | FinishedSwapBackTransactionHashRound => ∅
          end).
Proof. destruct c; vm_compute; reflexivity. Qed.

Lemma transition_function_total c : is_Some (transition_function !! c).
Proof. rewrite transition_function_lookup. eauto. Qed.

Lemma in_final_states c :
  c ∈ final_states
  ↔ c = FinishedEnterPoolTransactionHashRound
    ∨ c = FinishedExitPoolTransactionHashRound
    ∨ c = FinishedSwapBackTransactionHashRound.
Proof.
  unfold final_states.
  rewrite !elem_of_union, !elem_of_singleton. tauto.
Qed.

(** C2: the transition table is exactly the one listed: the edges of
    every round class, the initial round and the final rounds. *)
Theorem transition_table_exact :
  initial_round_cls = StrategyEvaluationRound
  ∧ final_states
    = {[ FinishedEnterPoolTransactionHashRound;
         FinishedExitPoolTransactionHashRound;
         FinishedSwapBackTransactionHashRound ]}
  ∧ dom transition_function = list_to_set RoundCls_all
  ∧ ∀ c e,
      next_round c e =
      match c, e with
      | StrategyEvaluationRound, DONE => Some SleepRound
      | StrategyEvaluationRound, DONE_ENTER =>
          Some EnterPoolTransactionHashRound
      | StrategyEvaluationRound, DONE_EXIT =>
          Some ExitPoolTransactionHashRound
      | StrategyEvaluationRound, DONE_SWAP_BACK =>
          Some SwapBackTransactionHashRound
      | EnterPoolTransactionHashRound, DONE =>
          Some FinishedEnterPoolTransactionHashRound
      | ExitPoolTransactionHashRound, DONE =>
          Some FinishedExitPoolTransactionHashRound
      | SwapBackTransactionHashRound, DONE =>
          Some FinishedSwapBackTransactionHashRound
      | SleepRound, DONE => Some StrategyEvaluationRound
      | (StrategyEvaluationRound | SleepRound
         | EnterPoolTransactionHashRound | ExitPoolTransactionHashRound
         | SwapBackTransactionHashRound),
        (ROUND_TIMEOUT | NO_MAJORITY) => Some StrategyEvaluationRound
      | _, _ => None
      end.
Proof.
  split_and!; [done | done | by vm_compute |].
  intros [] []; by vm_compute.
Qed.

(** C8: the timeout table has exactly two entries, 5 for [EXIT] and 30
    for [ROUND_TIMEOUT]. *)
Theorem event_to_timeout_exact :
  ∀ e, event_to_timeout !! e =
       match e with
       | EXIT => Some (5 # 1)
       | ROUND_TIMEOUT => Some (30 # 1)
       | _ => None
       end.
Proof. intros []; by vm_compute. Qed.

Lemma next_round_in_table c e c' :
  next_round c e = Some c' → is_Some (transition_function !! c').
Proof. intros _. apply transition_function_total. Qed.

Lemma targets_are_keys c edges e c' :
  transition_function !! c = Some edges → edges !! e = Some c' →
  c' ∈ dom transition_function.
Proof.
  intros Hc He. apply elem_of_dom, (next_round_in_table c e).
  unfold next_round. by rewrite Hc.
Qed.

Lemma run_stays_in_table es : ∀ c c',
  c ∈ dom transition_function → run c es = Some c' →
  c' ∈ dom transition_function.
Proof.
  induction es as [|e es IH]; intros c c' Hc Hrun; simpl in Hrun.
  - by simplify_eq.
  - destruct (next_round c e) as [c1|] eqn:Hstep; simpl in Hrun; [|done].
    apply (IH c1); [|done].
    unfold next_round in Hstep.
    destruct (transition_function !! c) as [edges|] eqn:Hedges;
      simpl in Hstep; [|done].
    by eapply targets_are_keys.
Qed.

(** C9: the table is closed.  Every target of an edge is a key, the
    rounds without outgoing edges are exactly the three final rounds,
    every other round has edges for [ROUND_TIMEOUT] and [NO_MAJORITY],
    and every sequence of listed events from the initial round ends
    in a key of the table. *)
Theorem transition_table_closed :
  (∀ c edges e c',
      transition_function !! c = Some edges → edges !! e = Some c' →
      c' ∈ dom transition_function)
  ∧ (∀ c, transition_function !! c = Some ∅ ↔ c ∈ final_states)
  ∧ (∀ c, c ∈ dom transition_function → c ∉ final_states →
          is_Some (next_round c ROUND_TIMEOUT)
          ∧ is_Some (next_round c NO_MAJORITY))
  ∧ (∀ es c, run initial_round_cls es = Some c →
             c ∈ dom transition_function).
Proof.
  split_and!.
  - apply targets_are_keys.
  - intros c. rewrite in_final_states, transition_function_lookup.
    split.
    + destruct c; intros Hc; try tauto; exfalso;
        apply (f_equal (λ m, from_option size 0%nat m)) in Hc;
        vm_compute in Hc; discriminate Hc.
    + by intros [->|[->| ->]].
  - intros c _ Hc. rewrite in_final_states in Hc.
    unfold next_round. rewrite transition_function_lookup.
    destruct c; try (split; vm_compute; eauto; fail);
      exfalso; apply Hc; tauto.
  - intros es c. apply run_stays_in_table.
    apply elem_of_dom, transition_function_total.
Qed.

Lemma transition_table_closed_witness :
  run initial_round_cls [DONE_ENTER; DONE]
  = Some FinishedEnterPoolTransactionHashRound
  ∧ FinishedEnterPoolTransactionHashRound ∈ dom transition_function
  ∧ is_Some (next_round SleepRound ROUND_TIMEOUT).
Proof.
  pose proof transition_table_closed as (_ & _ & Hedges & Hrun).
  split_and!.
  - reflexivity.
  - apply (Hrun [DONE_ENTER; DONE]). reflexivity.
  - apply Hedges.
    + apply elem_of_dom. apply transition_function_total.
    + unfold final_states. intros Hin.
      apply elem_of_union in Hin as [Hin|Hin];
        [apply elem_of_union in Hin as [Hin|Hin]|];
        apply elem_of_singleton in Hin; discriminate Hin.
Defined.

End TableFacts.

(** ** The period state accessors *)

Section AccessorFacts.

Context {V : Type}.

(** C10: [safe_operation] returns [None] when its key is absent, while
    each of the twelve other accessors fails when its key is absent. *)
Theorem accessors_on_missing_key (self : PeriodState V) :
  (db self !! "safe_operation" = None → safe_operation self = inr None)
  ∧ Forall (λ '(key, accessor),
              db self !! key = None → accessor self = inl (KeyNotFound key))
           strict_accessors.
Proof.
  split.
  - intros Hkey. unfold safe_operation, get. by rewrite Hkey.
  - unfold strict_accessors.
    repeat (apply Forall_cons; split;
            [intros Hkey; cbv [most_voted_strategy most_voted_transfers
               participant_to_strategy participant_to_tx_hash
               most_voted_keeper_address safe_contract_address
               multisend_contract_address router_contract_address
               participant_to_signature most_voted_tx_hash
               most_voted_tx_data final_tx_hash get_strict];
             by rewrite Hkey|]).
    apply Forall_nil_2.
Qed.

End AccessorFacts.

Lemma accessors_on_missing_key_witness :
  safe_operation Scenario.initial_state = inr None
  ∧ most_voted_tx_hash Scenario.initial_state
    = inl (KeyNotFound "most_voted_tx_hash")
  ∧ final_tx_hash Scenario.initial_state = inl (KeyNotFound "final_tx_hash").
Proof.
  pose proof (accessors_on_missing_key Scenario.initial_state) as [Hsafe Hall].
  split_and!.
  - apply Hsafe. reflexivity.
  - reflexivity.
  - pose proof (proj1 (Forall_forall _ _) Hall
                  ("final_tx_hash", final_tx_hash)) as Hfinal.
    apply Hfinal; [|reflexivity].
    unfold strict_accessors. do 11 apply list_elem_of_further.
    apply list_elem_of_here.
Defined.

(** ** The sleep round *)

Section SleepFacts.

Context {V BaseTxPayload : Type}.
Implicit Types (self : SleepRound_.t (V:=V)) (payloads : list BaseTxPayload).

Lemma deliver_noop payloads self :
  SleepRound_.deliver payloads self = (self, inr ()).
Proof. induction payloads as [|p ps IH]; [done|]. exact IH. Qed.

(** C7: on a sleep round checking and processing a payload change
    nothing and never fail, for every sequence of submissions, and the
    first [end_block] afterwards returns the period state unchanged
    with [DONE], whatever was submitted. *)
Theorem sleep_round_noop payloads self :
  (∀ p : BaseTxPayload,
      SleepRound_.check_payload p self = (self, inr ())
      ∧ SleepRound_.process_payload p self = (self, inr ()))
  ∧ SleepRound_.deliver payloads self = (self, inr ())
  ∧ SleepRound_.end_block (SleepRound_.deliver payloads self).1
    = (self, inr (Some (SleepRound_._state self, DONE))).
Proof.
  split_and!; [done | apply deliver_noop |].
  by rewrite deliver_noop.
Qed.

End SleepFacts.

(** ** Counting votes *)

Section VotesFacts.

Context {A : Type} `{!EqDecision A}.
Implicit Types (l : list A) (v : A).

Lemma payloads_count_nonneg l v : (0 ≤ payloads_count l v)%Z.
Proof. unfold payloads_count. lia. Qed.

Lemma payloads_count_pos l v : v ∈ l → (1 ≤ payloads_count l v)%Z.
Proof.
  intros Hv. unfold payloads_count.
  assert (v ∈ filter (λ w, w = v) l) as Hin
    by (by apply list_elem_of_filter).
  destruct (filter (λ w, w = v) l); [by apply not_elem_of_nil in Hin|].
  simpl. lia.
Qed.

Lemma foldr_max_nonneg (zs : list Z) : (0 ≤ foldr Z.max 0%Z zs)%Z.
Proof. induction zs; simpl; lia. Qed.

Lemma foldr_max_upper (zs : list Z) z :
  z ∈ zs → (z ≤ foldr Z.max 0%Z zs)%Z.
Proof.
  induction 1 as [z zs|z y zs _ IH]; simpl; lia.
Qed.

Lemma foldr_max_attained (zs : list Z) :
  (0 < foldr Z.max 0%Z zs)%Z → foldr Z.max 0%Z zs ∈ zs.
Proof.
  induction zs as [|z zs IH]; simpl; [lia|]. intros Hpos.
  destruct (Z.max_spec z (foldr Z.max 0%Z zs)) as [[Hlt ->]|[Hle ->]].
  - apply list_elem_of_further, IH. lia.
  - apply list_elem_of_here.
Qed.

(** No value has more submissions than [largest_nb_votes]. *)
Lemma largest_nb_votes_upper l v :
  (payloads_count l v ≤ largest_nb_votes l)%Z.
Proof.
  unfold largest_nb_votes.
  destruct (decide (v ∈ l)) as [Hv|Hv].
  - apply foldr_max_upper, list_elem_of_fmap. eauto.
  - assert (payloads_count l v = 0)%Z as ->; [|apply foldr_max_nonneg].
    unfold payloads_count.
    destruct (filter (λ w, w = v) l) as [|w ws] eqn:Hf; [done|].
    assert (w ∈ filter (λ w, w = v) l) as Hw
      by (rewrite Hf; apply list_elem_of_here).
    apply list_elem_of_filter in Hw as [-> Hw]. done.
Qed.

(** With at least one submission, [most_common] is a submitted value
    with [largest_nb_votes] submissions. *)
Lemma most_common_spec l :
  (0 < largest_nb_votes l)%Z →
  ∃ v, most_common l = Some v ∧ v ∈ l
       ∧ payloads_count l v = largest_nb_votes l.
Proof.
  intros Hpos. unfold largest_nb_votes in Hpos.
  apply foldr_max_attained, list_elem_of_fmap in Hpos as (w & Hw & Hin).
  destruct (list_find_elem_of
              (λ v, payloads_count l v = largest_nb_votes l) l w)
    as [[i v] Hfind]; [done | done |].
  exists v. unfold most_common. rewrite Hfind. simpl.
  apply list_find_Some in Hfind as (Hi & Hv & _).
  split_and!; [done | by eapply list_elem_of_lookup_2 | done].
Qed.

Lemma most_common_inv l v :
  most_common l = Some v →
  v ∈ l ∧ payloads_count l v = largest_nb_votes l.
Proof.
  unfold most_common. intros Hm.
  destruct (list_find _ l) as [[i w]|] eqn:Hfind; simplify_eq/=.
  apply list_find_Some in Hfind as (Hi & Hv & _).
  split; [by eapply list_elem_of_lookup_2 | done].
Qed.

End VotesFacts.

(** ** The super-majority threshold *)

Lemma consensus_threshold_above n :
  (2 * n < 3 * consensus_threshold n)%Z.
Proof.
  unfold consensus_threshold.
  pose proof (Z.mod_pos_bound (2 * n) 3 ltac:(lia)).
  pose proof (Z.div_mod (2 * n) 3 ltac:(lia)). lia.
Qed.

Lemma consensus_threshold_least n k :
  (2 * n < 3 * k)%Z → (consensus_threshold n ≤ k)%Z.
Proof.
  unfold consensus_threshold. intros Hk.
  pose proof (Z.mod_pos_bound (2 * n) 3 ltac:(lia)).
  pose proof (Z.div_mod (2 * n) 3 ltac:(lia)). lia.
Qed.

Lemma consensus_threshold_pos n : (0 ≤ n)%Z → (1 ≤ consensus_threshold n)%Z.
Proof.
  intros Hn. unfold consensus_threshold.
  pose proof (Z.div_pos (2 * n) 3 ltac:(lia) ltac:(lia)). lia.
Qed.

Section CollectionFacts.

Context {P A : Type} `{!EqDecision A} (attribute : P → A).
Implicit Types (collection : gmap string P) (n : Z).

(** When the threshold is reached with at least one participant, the
    most voted payload exists and has at least [consensus_threshold]
    identical submissions. *)
Lemma threshold_reached_most_voted collection n :
  (0 ≤ n)%Z →
  threshold_reached attribute collection n = true →
  ∃ v, most_voted_payload attribute collection = inr v
       ∧ v ∈ votes attribute collection
       ∧ (consensus_threshold n
          ≤ payloads_count (votes attribute collection) v)%Z.
Proof.
  intros Hn Hreached. unfold threshold_reached in Hreached.
  apply bool_decide_eq_true in Hreached.
  pose proof (consensus_threshold_pos n Hn).
  destruct (most_common_spec (votes attribute collection))
    as (v & Hmost & Hin & Hcount); [lia|].
  exists v. unfold most_voted_payload. rewrite Hmost.
  split_and!; [done | done | lia].
Qed.

End CollectionFacts.

(** ** Reading back what [update] wrote *)

Section UpdateFacts.

Context {V : Type}.
Implicit Types (state : PeriodState V) (x : dbval V).

Lemma update_reads2 state k1 x1 k2 x2 :
  k1 ≠ k2 →
  get_strict (update [(k1, x1); (k2, x2)] state) k1 = inr x1
  ∧ get_strict (update [(k1, x1); (k2, x2)] state) k2 = inr x2.
Proof.
  intros Hne. unfold get_strict, update; simpl.
  rewrite lookup_insert_ne by done. by rewrite !lookup_insert_eq.
Qed.

Lemma update_reads3 state k1 x1 k2 x2 k3 x3 :
  k1 ≠ k2 → k1 ≠ k3 → k2 ≠ k3 →
  get_strict (update [(k1, x1); (k2, x2); (k3, x3)] state) k1 = inr x1
  ∧ get_strict (update [(k1, x1); (k2, x2); (k3, x3)] state) k2 = inr x2
  ∧ get_strict (update [(k1, x1); (k2, x2); (k3, x3)] state) k3 = inr x3.
Proof.
  intros H12 H13 H23. unfold get_strict, update; simpl. split_and!.
  - rewrite !lookup_insert_ne by done. by rewrite lookup_insert_eq.
  - rewrite lookup_insert_ne by done. by rewrite lookup_insert_eq.
  - by rewrite lookup_insert_eq.
Qed.

Lemma calls_unchanged {Self A} (m : Method Self A) :
  (∀ self, (m self).1 = self) →
  ∀ k self, calls k m self = (self, replicate k (m self).2).
Proof.
  intros Hm k self. induction k as [|k IH]; simpl; [done|].
  specialize (Hm self). destruct (m self) as [self' r]; simpl in *.
  subst self'. by rewrite IH.
Qed.

End UpdateFacts.

(** ** The strategy evaluation round *)

Section StrategyFacts.

Context {V : Type} `{!EqDecision V}.
Implicit Types (self : StrategyEvaluationRound_.t (V:=V)).

Lemma eq_str_true (x : pyval V) s : eq_str x s = true ↔ x = PStr s.
Proof.
  destruct x as [t|v]; simpl.
  - rewrite bool_decide_eq_true. naive_solver.
  - naive_solver.
Qed.

(** C1: a strategy round whose threshold is reached writes the whole
    collection and the agreed strategy into the period state and emits
    the event selected by the agreed [action]: [DONE] for wait,
    [DONE_ENTER] for enter, [DONE_EXIT] for exit, [DONE_SWAP_BACK] for
    swap_back and [RESET_TIMEOUT] for any other value. *)
Theorem strategy_end_block_commit self payload (a : pyval V) :
  threshold_reached strategy (StrategyEvaluationRound_.collection self)
    (nb_participants (StrategyEvaluationRound_._state self)) = true →
  most_voted_payload strategy (StrategyEvaluationRound_.collection self)
    = inr payload →
  payload !! "action" = Some a →
  ∃ state event,
    StrategyEvaluationRound_.end_block self
    = (self, inr (Some (state, event)))
    ∧ participant_to_strategy state
      = inr (DStrategies (StrategyEvaluationRound_.collection self))
    ∧ most_voted_strategy state = inr (DDict payload)
    ∧ (a = PStr "wait" → event = DONE)
    ∧ (a = PStr "enter" → event = DONE_ENTER)
    ∧ (a = PStr "exit" → event = DONE_EXIT)
    ∧ (a = PStr "swap_back" → event = DONE_SWAP_BACK)
    ∧ (a ∉ [PStr "wait"; PStr "enter"; PStr "exit"; PStr "swap_back"] →
       event = RESET_TIMEOUT).
Proof.
  intros Hreached Hmost Haction.
  unfold StrategyEvaluationRound_.end_block, StrategyEvaluationRound_.action,
    bind, this, try, returns, getitem; simpl.
  rewrite Hreached, Hmost, Haction; simpl.
  destruct (eq_str a "wait") eqn:Hwait;
    [|destruct (eq_str a "enter") eqn:Henter;
      [|destruct (eq_str a "exit") eqn:Hexit;
        [|destruct (eq_str a "swap_back") eqn:Hswap]]];
    eexists _, _; (split; [reflexivity|]);
    (split; [by apply update_reads2|]);
    (split; [by apply update_reads2|]);
    repeat match goal with
           | H : eq_str _ _ = true |- _ => apply eq_str_true in H; subst a
           end;
    split_and!; intros Ha; try done;
    try (exfalso; apply Ha; set_solver).
  - by apply eq_str_true in Ha; rewrite Ha in Hwait.
  - by apply eq_str_true in Ha; rewrite Ha in Henter.
  - by apply eq_str_true in Ha; rewrite Ha in Hexit.
  - by apply eq_str_true in Ha; rewrite Ha in Hswap.
Qed.

Lemma strategy_end_block_unchanged self :
  (StrategyEvaluationRound_.end_block self).1 = self.
Proof.
  unfold StrategyEvaluationRound_.end_block, StrategyEvaluationRound_.action,
    _return_no_majority_event, bind, this, try, returns, raise; simpl.
  repeat (case_match; simpl in *; simplify_eq; try done).
Qed.

End StrategyFacts.

Lemma strategy_end_block_commit_witness :
  ∃ state,
    (StrategyEvaluationRound_.end_block Scenario.strategy_round).2
    = inr (Some (state, DONE_ENTER))
    ∧ next_round StrategyEvaluationRound DONE_ENTER
      = Some EnterPoolTransactionHashRound.
Proof.
  destruct (strategy_end_block_commit Scenario.strategy_round
              (Scenario.strategy_of "enter") (PStr "enter"))
    as (state & event & Hend & _ & _ & _ & Henter & _).
  - vm_compute. reflexivity.
  - vm_compute. reflexivity.
  - vm_compute. reflexivity.
  - exists state. rewrite Hend, (Henter eq_refl). split; reflexivity.
Defined.

(** ** The transaction hash rounds *)

Section TxHashFacts.

Context {V : Type} `{!EqDecision V}.
Variable json_loads : string → option (pyobj V).
Implicit Types (self : TransactionHashBaseRound.t (V:=V)).

Lemma tx_end_block_unchanged self :
  (TransactionHashBaseRound.end_block json_loads self).1 = self.
Proof.
  unfold TransactionHashBaseRound.end_block, TransactionHashBaseRound.loads,
    _return_no_majority_event, bind, this, try, returns, raise; simpl.
  repeat (case_match; simpl in *; simplify_eq; try done).
Qed.

(** The subclass of the instance plays no part in [end_block]. *)
Lemma tx_end_block_any_cls c self :
  (TransactionHashBaseRound.end_block json_loads (TransactionHashBaseRound.as_cls c self)).2
  = (TransactionHashBaseRound.end_block json_loads self).2.
Proof.
  unfold TransactionHashBaseRound.end_block, TransactionHashBaseRound.loads,
    _return_no_majority_event, bind, this, try, returns, raise; simpl.
  repeat (case_match; simpl in *; simplify_eq; try done).
Qed.

(** C3: a transaction hash round whose threshold is reached decodes the
    agreed payload, writes the whole collection and the decoded
    [tx_hash] and [tx_data] into the period state and emits [DONE]; the
    three subclasses behave identically and [DONE] leads each of them
    to its own final round. *)
Theorem tx_hash_end_block_commit self payload d (hash data : pyval V) :
  threshold_reached tx_hash (TransactionHashBaseRound.collection self)
    (nb_participants (TransactionHashBaseRound._state self)) = true →
  most_voted_payload tx_hash (TransactionHashBaseRound.collection self)
    = inr payload →
  json_loads payload = Some (PDict d) →
  d !! "tx_hash" = Some hash →
  d !! "tx_data" = Some data →
  ∃ state,
    TransactionHashBaseRound.end_block json_loads self
    = (self, inr (Some (state, DONE)))
    ∧ participant_to_tx_hash state
      = inr (DTxHashes (TransactionHashBaseRound.collection self))
    ∧ most_voted_tx_hash state = inr (DVal hash)
    ∧ most_voted_tx_data state = inr (DVal data)
    ∧ (∀ c, (TransactionHashBaseRound.end_block json_loads
               (TransactionHashBaseRound.as_cls c self)).2
            = inr (Some (state, DONE)))
    ∧ next_round EnterPoolTransactionHashRound DONE
      = Some FinishedEnterPoolTransactionHashRound
    ∧ next_round ExitPoolTransactionHashRound DONE
      = Some FinishedExitPoolTransactionHashRound
    ∧ next_round SwapBackTransactionHashRound DONE
      = Some FinishedSwapBackTransactionHashRound.
Proof.
  intros Hreached Hmost Hloads Hhash Hdata.
  assert (TransactionHashBaseRound.end_block json_loads self
          = (self, inr (Some
               (update
                  [ ("participant_to_tx_hash",
                     DTxHashes (TransactionHashBaseRound.collection self));
                    ("most_voted_tx_hash", DVal hash);
                    ("most_voted_tx_data", DVal data) ]
                  (TransactionHashBaseRound._state self), DONE))))
    as Hend.
  { unfold TransactionHashBaseRound.end_block, TransactionHashBaseRound.loads,
      bind, this, try, returns, getitem; simpl.
    by rewrite Hreached, Hmost, Hloads, Hhash, Hdata. }
  eexists. split; [exact Hend|].
  split_and!; try apply update_reads3; try done.
  intros c. by rewrite tx_end_block_any_cls, Hend.
Qed.

End TxHashFacts.

Lemma tx_hash_end_block_commit_witness :
  ∃ state,
    (TransactionHashBaseRound.end_block FlatJson.loads
       Scenario.enter_pool_round).2
    = inr (Some (state, DONE))
    ∧ most_voted_tx_hash state = inr (DVal (PStr "0xabc"))
    ∧ most_voted_tx_data state = inr (DVal (PStr "0x01"))
    ∧ next_round
        (TransactionHashBaseRound.cls Scenario.enter_pool_round) DONE
      = Some FinishedEnterPoolTransactionHashRound.
Proof.
  destruct (tx_hash_end_block_commit FlatJson.loads
              Scenario.enter_pool_round Scenario.tx_text
              {[ "tx_hash" := PStr "0xabc"; "tx_data" := PStr "0x01" ]}
              (PStr "0xabc") (PStr "0x01"))
    as (state & Hend & _ & Hhash & Hdata & _ & Hnext & _).
  - vm_compute. reflexivity.
  - vm_compute. reflexivity.
  - vm_compute. reflexivity.
  - vm_compute. reflexivity.
  - vm_compute. reflexivity.
  - exists state. rewrite Hend. split_and!; [reflexivity | done | done | done].
Defined.

(** ** Calling [end_block] again *)

Section RepeatedCalls.

Context {V : Type} `{!EqDecision V}.
Variable json_loads : string → option (pyobj V).

(** C4 (as the code has it): [end_block] never modifies the round, so
    every further call on the unchanged instance returns what the first
    call returned: a committed round returns its decision again. *)
Theorem end_block_repeats
    (tx : TransactionHashBaseRound.t (V:=V))
    (st : StrategyEvaluationRound_.t (V:=V)) (k : nat) :
  calls k (TransactionHashBaseRound.end_block json_loads) tx
  = (tx, replicate k (TransactionHashBaseRound.end_block json_loads tx).2)
  ∧ calls k StrategyEvaluationRound_.end_block st
    = (st, replicate k (StrategyEvaluationRound_.end_block st).2).
Proof.
  split; apply calls_unchanged.
  - apply tx_end_block_unchanged.
  - apply strategy_end_block_unchanged.
Qed.

End RepeatedCalls.

(** C4 as stated fails: on the committed enter-pool round the second call
    of [end_block] returns the decision a second time. *)
Lemma end_block_fires_again :
  threshold_reached tx_hash
    (TransactionHashBaseRound.collection Scenario.enter_pool_round)
    (nb_participants
       (TransactionHashBaseRound._state Scenario.enter_pool_round)) = true
  ∧ ∃ state,
      calls 2 (TransactionHashBaseRound.end_block FlatJson.loads)
        Scenario.enter_pool_round
      = (Scenario.enter_pool_round,
         [inr (Some (state, DONE)); inr (Some (state, DONE))])
      ∧ (calls 2 (TransactionHashBaseRound.end_block FlatJson.loads)
           Scenario.enter_pool_round).2 !! 1%nat
        ≠ Some (inr None).
Proof.
  split; [by vm_compute|].
  eexists. split.
  - vm_compute. reflexivity.
  - vm_compute. discriminate.
Qed.

(** ** Without the threshold *)

Section NoMajority.

Context {V : Type} `{!EqDecision V}.
Variable json_loads : string → option (pyobj V).

(** C5: when the threshold is not reached, [end_block] returns the
    unchanged period state with [NO_MAJORITY] if the largest count plus
    the participants still to answer stays below the threshold, and
    returns nothing otherwise; for both kinds of round. *)
Theorem end_block_without_threshold
    (tx : TransactionHashBaseRound.t (V:=V))
    (st : StrategyEvaluationRound_.t (V:=V)) :
  let tx_votes := votes tx_hash (TransactionHashBaseRound.collection tx) in
  let tx_n := nb_participants (TransactionHashBaseRound._state tx) in
  let st_votes :=
    votes strategy (StrategyEvaluationRound_.collection st) in
  let st_n := nb_participants (StrategyEvaluationRound_._state st) in
  (threshold_reached tx_hash (TransactionHashBaseRound.collection tx) tx_n
   = false →
     ((largest_nb_votes tx_votes + (tx_n - Z.of_nat (length tx_votes))
       < consensus_threshold tx_n)%Z →
      TransactionHashBaseRound.end_block json_loads tx
      = (tx, inr (Some (TransactionHashBaseRound._state tx, NO_MAJORITY))))
     ∧ ((consensus_threshold tx_n
         ≤ largest_nb_votes tx_votes
           + (tx_n - Z.of_nat (length tx_votes)))%Z →
        TransactionHashBaseRound.end_block json_loads tx = (tx, inr None)))
  ∧ (threshold_reached strategy (StrategyEvaluationRound_.collection st)
       st_n = false →
     ((largest_nb_votes st_votes + (st_n - Z.of_nat (length st_votes))
       < consensus_threshold st_n)%Z →
      StrategyEvaluationRound_.end_block st
      = (st, inr (Some (StrategyEvaluationRound_._state st, NO_MAJORITY))))
     ∧ ((consensus_threshold st_n
         ≤ largest_nb_votes st_votes
           + (st_n - Z.of_nat (length st_votes)))%Z →
        StrategyEvaluationRound_.end_block st = (st, inr None))).
Proof.
  simpl. split; intros Hreached; split; intros Hcount;
    unfold TransactionHashBaseRound.end_block,
      StrategyEvaluationRound_.end_block, _return_no_majority_event,
      is_majority_possible, bind, this, returns; simpl;
    rewrite Hreached.
  - apply Z.ltb_lt in Hcount. by rewrite Hcount.
  - apply Z.ltb_ge in Hcount. by rewrite Hcount.
  - apply Z.ltb_lt in Hcount. by rewrite Hcount.
  - apply Z.ltb_ge in Hcount. by rewrite Hcount.
Qed.

End NoMajority.

Lemma end_block_without_threshold_witness :
  StrategyEvaluationRound_.end_block Scenario.split_round
  = (Scenario.split_round,
     inr (Some (Scenario.initial_state, NO_MAJORITY)))
  ∧ TransactionHashBaseRound.end_block FlatJson.loads
      Scenario.pending_tx_round
    = (Scenario.pending_tx_round, inr None).
Proof.
  pose proof (end_block_without_threshold FlatJson.loads
                Scenario.pending_tx_round Scenario.split_round)
    as [Htx Hst]; simpl in Htx, Hst.
  split.
  - apply Hst; [by vm_compute | by vm_compute].
  - apply Htx; [by vm_compute | by vm_compute].
Defined.

(** ** The threshold in the rounds *)

Section ThresholdFacts.

Context {P A : Type} `{!EqDecision A} (attribute : P → A).
Implicit Types (collection : gmap string P) (n : Z).

(** The threshold is reached exactly when some submitted value has more
    than two thirds of the participants behind it. *)
Lemma threshold_reached_iff collection n :
  (0 ≤ n)%Z →
  threshold_reached attribute collection n = true
  ↔ ∃ v, v ∈ votes attribute collection
         ∧ (2 * n < 3 * payloads_count (votes attribute collection) v)%Z.
Proof.
  intros Hn. split.
  - intros Hreached.
    destruct (threshold_reached_most_voted attribute collection n Hn Hreached)
      as (v & _ & Hin & Hcount).
    exists v. split; [done|].
    pose proof (consensus_threshold_above n). lia.
  - intros (v & _ & Hcount).
    unfold threshold_reached. apply bool_decide_eq_true.
    pose proof (consensus_threshold_least n _ Hcount).
    pose proof (largest_nb_votes_upper (votes attribute collection) v).
    lia.
Qed.

(** A majority is still possible exactly when the largest count plus
    the missing submissions exceeds two thirds of the participants. *)
Lemma is_majority_possible_iff collection n :
  is_majority_possible attribute collection n = true
  ↔ (2 * n < 3 * (largest_nb_votes (votes attribute collection)
                  + (n - Z.of_nat (length (votes attribute collection)))))%Z.
Proof.
  unfold is_majority_possible.
  rewrite negb_true_iff, Z.ltb_ge. split.
  - intros Hle. pose proof (consensus_threshold_above n). lia.
  - apply consensus_threshold_least.
Qed.

End ThresholdFacts.

Section ThresholdInRounds.

Context {V : Type} `{!EqDecision V}.
Variable json_loads : string → option (pyobj V).

Lemma tx_commit_reached (tx : TransactionHashBaseRound.t (V:=V)) state :
  (TransactionHashBaseRound.end_block json_loads tx).2
  = inr (Some (state, DONE)) →
  threshold_reached tx_hash (TransactionHashBaseRound.collection tx)
    (nb_participants (TransactionHashBaseRound._state tx)) = true.
Proof.
  unfold TransactionHashBaseRound.end_block, _return_no_majority_event,
    bind, this, returns; simpl.
  destruct (threshold_reached _ _ _); [done|].
  destruct (is_majority_possible _ _ _); simpl; discriminate.
Qed.

Lemma strategy_commit_reached (st : StrategyEvaluationRound_.t (V:=V))
    state event :
  (StrategyEvaluationRound_.end_block st).2 = inr (Some (state, event)) →
  event ≠ NO_MAJORITY →
  threshold_reached strategy (StrategyEvaluationRound_.collection st)
    (nb_participants (StrategyEvaluationRound_._state st)) = true.
Proof.
  unfold StrategyEvaluationRound_.end_block, _return_no_majority_event,
    bind, this, returns; simpl.
  destruct (threshold_reached _ _ _); [done|].
  destruct (is_majority_possible _ _ _); simpl; intros Hend Hevent;
    by simplify_eq.
Qed.

(** C6: with [n >= 1] participants the threshold is the smallest
    integer above [2n/3] (3 for [n = 4]); it is the bound both
    [threshold_reached] and [is_majority_possible] compare against, and
    a round commits only when some payload has at least that many
    identical submissions. *)
Theorem consensus_threshold_supermajority (n : Z) :
  (1 ≤ n)%Z →
  (2 * n < 3 * consensus_threshold n)%Z
  ∧ (∀ k : Z, (2 * n < 3 * k)%Z → (consensus_threshold n ≤ k)%Z)
  ∧ consensus_threshold 4 = 3%Z
  ∧ (∀ (tx : TransactionHashBaseRound.t (V:=V)) state,
       nb_participants (TransactionHashBaseRound._state tx) = n →
       (TransactionHashBaseRound.end_block json_loads tx).2
       = inr (Some (state, DONE)) →
       ∃ v, v ∈ votes tx_hash (TransactionHashBaseRound.collection tx)
            ∧ (consensus_threshold n
               ≤ payloads_count
                   (votes tx_hash (TransactionHashBaseRound.collection tx))
                   v)%Z)
  ∧ (∀ (st : StrategyEvaluationRound_.t (V:=V)) state event,
       nb_participants (StrategyEvaluationRound_._state st) = n →
       (StrategyEvaluationRound_.end_block st).2
       = inr (Some (state, event)) →
       event ≠ NO_MAJORITY →
       ∃ v, v ∈ votes strategy (StrategyEvaluationRound_.collection st)
            ∧ (consensus_threshold n
               ≤ payloads_count
                   (votes strategy (StrategyEvaluationRound_.collection st))
                   v)%Z)
  ∧ (∀ (c : gmap string TransactionHashPayload),
       (threshold_reached tx_hash c n = true
        ↔ ∃ v, v ∈ votes tx_hash c
               ∧ (2 * n < 3 * payloads_count (votes tx_hash c) v)%Z)
       ∧ (is_majority_possible tx_hash c n = true
          ↔ (2 * n < 3 * (largest_nb_votes (votes tx_hash c)
                          + (n - Z.of_nat (length (votes tx_hash c)))))%Z))
  ∧ (∀ (c : gmap string (StrategyEvaluationPayload V)),
       (threshold_reached strategy c n = true
        ↔ ∃ v, v ∈ votes strategy c
               ∧ (2 * n < 3 * payloads_count (votes strategy c) v)%Z)
       ∧ (is_majority_possible strategy c n = true
          ↔ (2 * n < 3 * (largest_nb_votes (votes strategy c)
                          + (n - Z.of_nat (length (votes strategy c)))))%Z)).
Proof.
  intros Hn. split_and!.
  - apply consensus_threshold_above.
  - apply consensus_threshold_least.
  - reflexivity.
  - intros tx state <- Hend.
    apply tx_commit_reached in Hend.
    destruct (threshold_reached_most_voted tx_hash _ _
                (Z.le_trans _ _ _ Z.le_0_1 Hn) Hend)
      as (v & _ & Hin & Hcount).
    by exists v.
  - intros st state event <- Hend Hevent.
    apply strategy_commit_reached in Hend; [|done].
    destruct (threshold_reached_most_voted strategy _ _
                (Z.le_trans _ _ _ Z.le_0_1 Hn) Hend)
      as (v & _ & Hin & Hcount).
    by exists v.
  - intros c. split;
      [apply threshold_reached_iff; lia | apply is_majority_possible_iff].
  - intros c. split;
      [apply threshold_reached_iff; lia | apply is_majority_possible_iff].
Qed.

End ThresholdInRounds.

Lemma consensus_threshold_supermajority_witness :
  consensus_threshold 4 = 3%Z
  ∧ ∃ v,
      v ∈ votes strategy
            (StrategyEvaluationRound_.collection Scenario.strategy_round)
      ∧ (3 ≤ payloads_count
               (votes strategy
                  (StrategyEvaluationRound_.collection
                     Scenario.strategy_round)) v)%Z.
Proof.
  destruct (consensus_threshold_supermajority (V:=Z) FlatJson.loads 4)
    as (_ & _ & Hfour & _ & Hst & _); [lia|].
  split; [exact Hfour|].
  assert (∃ state,
            (StrategyEvaluationRound_.end_block Scenario.strategy_round).2
            = inr (Some (state, DONE_ENTER))) as [state Hend]
    by (eexists; vm_compute; reflexivity).
  destruct (Hst Scenario.strategy_round state DONE_ENTER)
    as (v & Hin & Hcount); [reflexivity | exact Hend | discriminate |].
  exists v. split; [exact Hin|]. rewrite <- Hfour. exact Hcount.
Defined.

(** * Further properties of the module *)

(** ** Names *)

(** The eight members of [Event] carry pairwise different values, so none
    of them is an alias of another. *)
Theorem Event_value_inj (e1 e2 : Event) :
  Event_value e1 = Event_value e2 ↔ e1 = e2.
Proof.
  split; [|by intros ->].
  destruct e1, e2; intros Heq; try reflexivity; vm_compute in Heq;
    discriminate Heq.
Qed.

(** The concrete round classes have pairwise different [round_id]s, and
    none of them keeps the [round_id] of [TransactionHashBaseRound]. *)
Theorem round_id_inj (c1 c2 : RoundCls) :
  (round_id c1 = round_id c2 ↔ c1 = c2)
  ∧ round_id c1 ≠ TransactionHashBaseRound.base_round_id.
Proof.
  split; [split; [|by intros ->]|].
  - destruct c1, c2; intros Heq; try reflexivity; vm_compute in Heq;
      discriminate Heq.
  - destruct c1; intros Heq; vm_compute in Heq; discriminate Heq.
Qed.

(** ** Walking the transition table *)

Lemma next_round_final c e : c ∈ final_states → next_round c e = None.
Proof.
  intros Hc. apply TableFacts.in_final_states in Hc.
  unfold next_round. rewrite TableFacts.transition_function_lookup.
  by destruct Hc as [->|[->| ->]].
Qed.

(** A final round is never left: from a final round no event leads
    anywhere, so a run through the table stops there. *)
Theorem final_rounds_absorbing c es c' :
  c ∈ final_states → run c es = Some c' → es = [] ∧ c' = c.
Proof.
  intros Hc Hrun. destruct es as [|e es]; simpl in Hrun.
  - by simplify_eq.
  - by rewrite (next_round_final c e Hc) in Hrun.
Qed.

Lemma final_rounds_absorbing_witness :
  run FinishedExitPoolTransactionHashRound [] =
  Some FinishedExitPoolTransactionHashRound
  ∧ ([] : list Event) = [] ∧
    FinishedExitPoolTransactionHashRound = FinishedExitPoolTransactionHashRound.
Proof.
  split; [reflexivity|].
  apply (final_rounds_absorbing FinishedExitPoolTransactionHashRound []).
  - apply TableFacts.in_final_states. right. left. reflexivity.
  - reflexivity.
Defined.

(** Every round class of the table can be reached from the initial
    round, and from every round class a final round can be reached with
    at most three events. *)
Theorem rounds_reachable (c : RoundCls) :
  (∃ es, run initial_round_cls es = Some c)
  ∧ ∃ es c', (length es ≤ 3)%nat ∧ run c es = Some c' ∧ c' ∈ final_states.
Proof.
  split.
  - destruct c;
      [ exists []
      | exists [DONE]
      | exists [DONE_ENTER]
      | exists [DONE_ENTER; DONE]
      | exists [DONE_EXIT]
      | exists [DONE_EXIT; DONE]
      | exists [DONE_SWAP_BACK]
      | exists [DONE_SWAP_BACK; DONE] ];
      vm_compute; reflexivity.
  - destruct c;
      [ exists [DONE_ENTER; DONE], FinishedEnterPoolTransactionHashRound
      | exists [DONE; DONE_ENTER; DONE], FinishedEnterPoolTransactionHashRound
      | exists [DONE], FinishedEnterPoolTransactionHashRound
      | exists [], FinishedEnterPoolTransactionHashRound
      | exists [DONE], FinishedExitPoolTransactionHashRound
      | exists [], FinishedExitPoolTransactionHashRound
      | exists [DONE], FinishedSwapBackTransactionHashRound
      | exists [], FinishedSwapBackTransactionHashRound ];
      (split_and!; [simpl; lia | vm_compute; reflexivity
                   | apply TableFacts.in_final_states; tauto]).
Qed.

(** ** What [end_block] can return *)

Section EndBlockResults.

Context {V : Type} `{!EqDecision V}.
Variable json_loads : string → option (pyobj V).
Implicit Types (tx : TransactionHashBaseRound.t (V:=V)).
Implicit Types (st : StrategyEvaluationRound_.t (V:=V)).

(** The two ways a transaction hash round returns a decision. *)
Lemma tx_result_inv tx state e :
  (TransactionHashBaseRound.end_block json_loads tx).2
  = inr (Some (state, e)) →
  (e = NO_MAJORITY ∧ state = TransactionHashBaseRound._state tx
   ∧ threshold_reached tx_hash (TransactionHashBaseRound.collection tx)
       (nb_participants (TransactionHashBaseRound._state tx)) = false)
  ∨ (e = DONE
     ∧ threshold_reached tx_hash (TransactionHashBaseRound.collection tx)
         (nb_participants (TransactionHashBaseRound._state tx)) = true
     ∧ ∃ hash data,
         state
         = update
             [ ("participant_to_tx_hash",
                DTxHashes (TransactionHashBaseRound.collection tx));
               ("most_voted_tx_hash", DVal hash);
               ("most_voted_tx_data", DVal data) ]
             (TransactionHashBaseRound._state tx)).
Proof.
  unfold TransactionHashBaseRound.end_block, TransactionHashBaseRound.loads,
    _return_no_majority_event, bind, this, try, returns, raise, getitem;
    simpl.
  destruct (threshold_reached _ _ _) eqn:Hreached.
  - intros Hend. right.
    repeat (case_match; simpl in *; simplify_eq).
    split_and!; [done | done | eauto].
  - intros Hend. left.
    destruct (is_majority_possible _ _ _); simpl in *; simplify_eq.
    done.
Qed.

(** The ways a strategy round returns a decision. *)
Lemma strategy_result_inv st state e :
  (StrategyEvaluationRound_.end_block st).2 = inr (Some (state, e)) →
  (e = NO_MAJORITY ∧ state = StrategyEvaluationRound_._state st
   ∧ threshold_reached strategy (StrategyEvaluationRound_.collection st)
       (nb_participants (StrategyEvaluationRound_._state st)) = false)
  ∨ (e ∈ [DONE; DONE_ENTER; DONE_EXIT; DONE_SWAP_BACK; RESET_TIMEOUT]
     ∧ threshold_reached strategy (StrategyEvaluationRound_.collection st)
         (nb_participants (StrategyEvaluationRound_._state st)) = true
     ∧ ∃ payload,
         most_voted_payload strategy (StrategyEvaluationRound_.collection st)
         = inr payload
         ∧ state
           = update
               [ ("participant_to_strategy",
                  DStrategies (StrategyEvaluationRound_.collection st));
                 ("most_voted_strategy", DDict payload) ]
               (StrategyEvaluationRound_._state st)).
Proof.
  unfold StrategyEvaluationRound_.end_block, StrategyEvaluationRound_.action,
    _return_no_majority_event, bind, this, try, returns, raise, getitem;
    simpl.
  destruct (threshold_reached _ _ _) eqn:Hreached.
  - intros Hend. right.
    destruct (most_voted_payload _ _) as [err|payload]; simpl in *;
      [discriminate Hend|].
    destruct (payload !! "action") as [a|]; simpl in *; [|discriminate Hend].
    repeat (case_match; simpl in *; simplify_eq);
      (split_and!; [set_solver | done | eauto]).
  - intros Hend. left.
    destruct (is_majority_possible _ _ _); simpl in *; simplify_eq.
    done.
Qed.

End EndBlockResults.

(** ** Failures of [end_block] *)

Section EndBlockFailures.

Context {V : Type} `{!EqDecision V}.
Variable json_loads : string → option (pyobj V).
Implicit Types (tx : TransactionHashBaseRound.t (V:=V)).
Implicit Types (st : StrategyEvaluationRound_.t (V:=V)).

(** When the agreed transaction hash payload cannot be used, the round
    raises and returns no decision: [JSONDecodeError] when the text is not
    JSON, [TypeError] when it does not decode to an object, [KeyError] for
    [tx_hash] when that field is missing, and [KeyError] for [tx_data] when
    only that field is missing.  The round is left as it was. *)
Theorem tx_hash_end_block_raises tx payload :
  threshold_reached tx_hash (TransactionHashBaseRound.collection tx)
    (nb_participants (TransactionHashBaseRound._state tx)) = true →
  most_voted_payload tx_hash (TransactionHashBaseRound.collection tx)
    = inr payload →
  (json_loads payload = None →
   TransactionHashBaseRound.end_block json_loads tx
   = (tx, inl JSONDecodeError))
  ∧ (∀ x, json_loads payload = Some (PScalar x) →
          TransactionHashBaseRound.end_block json_loads tx
          = (tx, inl TypeError))
  ∧ (∀ d, json_loads payload = Some (PDict d) → d !! "tx_hash" = None →
          TransactionHashBaseRound.end_block json_loads tx
          = (tx, inl (KeyError "tx_hash")))
  ∧ (∀ d hash, json_loads payload = Some (PDict d) →
               d !! "tx_hash" = Some hash → d !! "tx_data" = None →
               TransactionHashBaseRound.end_block json_loads tx
               = (tx, inl (KeyError "tx_data"))).
Proof.
  intros Hreached Hmost.
  unfold TransactionHashBaseRound.end_block, TransactionHashBaseRound.loads,
    bind, this, try, returns, raise, getitem; simpl.
  rewrite Hreached, Hmost; simpl.
  split_and!.
  - by intros ->.
  - by intros x ->.
  - by intros d -> ->.
  - by intros d hash -> -> ->.
Qed.

(** A strategy round whose agreed strategy has no [action] entry raises
    [KeyError] for [action]: no state and no event is returned. *)
Theorem strategy_end_block_raises st payload :
  threshold_reached strategy (StrategyEvaluationRound_.collection st)
    (nb_participants (StrategyEvaluationRound_._state st)) = true →
  most_voted_payload strategy (StrategyEvaluationRound_.collection st)
    = inr payload →
  payload !! "action" = None →
  StrategyEvaluationRound_.end_block st = (st, inl (KeyError "action")).
Proof.
  intros Hreached Hmost Haction.
  unfold StrategyEvaluationRound_.end_block, StrategyEvaluationRound_.action,
    bind, this, try, returns, raise, getitem; simpl.
  by rewrite Hreached, Hmost, Haction.
Qed.

End EndBlockFailures.

Lemma tx_hash_end_block_raises_witness :
  TransactionHashBaseRound.end_block FlatJson.loads
    (Scenario.tx_round_with "0xabc")
  = (Scenario.tx_round_with "0xabc", inl JSONDecodeError)
  ∧ TransactionHashBaseRound.end_block FlatJson.loads
      (Scenario.tx_round_with "{}")
    = (Scenario.tx_round_with "{}", inl (KeyError "tx_hash")).
Proof.
  split.
  - apply (tx_hash_end_block_raises FlatJson.loads
             (Scenario.tx_round_with "0xabc") "0xabc");
      vm_compute; reflexivity.
  - destruct (tx_hash_end_block_raises FlatJson.loads
                (Scenario.tx_round_with "{}") "{}")
      as (_ & _ & Hkey & _); [by vm_compute | by vm_compute |].
    apply (Hkey ∅); vm_compute; reflexivity.
Defined.

Lemma strategy_end_block_raises_witness :
  StrategyEvaluationRound_.end_block (Scenario.strategy_round_with ∅)
  = (Scenario.strategy_round_with ∅, inl (KeyError "action")).
Proof.
  apply (strategy_end_block_raises (Scenario.strategy_round_with ∅) ∅);
    vm_compute; reflexivity.
Defined.

(** ** What a decision leaves untouched *)

Section Frames.

Context {V : Type} `{!EqDecision V}.
Variable json_loads : string → option (pyobj V).
Implicit Types (tx : TransactionHashBaseRound.t (V:=V)).
Implicit Types (st : StrategyEvaluationRound_.t (V:=V)).

(** Accessors only depend on their own key. *)
Lemma accessors_frame (s1 s2 : PeriodState V) (written : list string) :
  (∀ key, key ∉ written → db s1 !! key = db s2 !! key) →
  Forall (λ '(key, accessor), key ∉ written → accessor s1 = accessor s2)
    strict_accessors
  ∧ ("safe_operation" ∉ written → safe_operation s1 = safe_operation s2).
Proof.
  intros Hframe. split.
  - unfold strict_accessors.
    repeat (apply Forall_cons; split;
            [intros Hkey; cbv [most_voted_strategy most_voted_transfers
               participant_to_strategy participant_to_tx_hash
               most_voted_keeper_address safe_contract_address
               multisend_contract_address router_contract_address
               participant_to_signature most_voted_tx_hash
               most_voted_tx_data final_tx_hash get_strict];
             by rewrite (Hframe _ Hkey)|]).
    apply Forall_nil_2.
  - intros Hkey. unfold safe_operation, get. by rewrite (Hframe _ Hkey).
Qed.

Lemma update_frame (s1 : PeriodState V) (kwargs : list (string * dbval V)) key :
  key ∉ kwargs.*1 → db (update kwargs s1) !! key = db s1 !! key.
Proof.
  unfold update; simpl. generalize (db s1). 
  induction kwargs as [|[k x] kwargs IH]; intros m Hkey; simpl; [done|].
  rewrite fmap_cons, not_elem_of_cons in Hkey. destruct Hkey as [Hne Hkey].
  rewrite IH by done. by rewrite lookup_insert_ne.
Qed.

(** Whatever a transaction hash round decides, the returned period state
    has the same participant count and the same content under every key
    other than the three it writes; the other accessors read what they
    read before. *)
Theorem tx_hash_end_block_frame tx state e :
  (TransactionHashBaseRound.end_block json_loads tx).2
  = inr (Some (state, e)) →
  let written :=
    ["participant_to_tx_hash"; "most_voted_tx_hash"; "most_voted_tx_data"] in
  nb_participants state
  = nb_participants (TransactionHashBaseRound._state tx)
  ∧ (∀ key, key ∉ written →
            db state !! key
            = db (TransactionHashBaseRound._state tx) !! key)
  ∧ Forall (λ '(key, accessor),
              key ∉ written →
              accessor state
              = accessor (TransactionHashBaseRound._state tx))
      strict_accessors
  ∧ safe_operation state
    = safe_operation (TransactionHashBaseRound._state tx).
Proof.
  intros Hend written.
  assert (nb_participants state
          = nb_participants (TransactionHashBaseRound._state tx)
          ∧ ∀ key, key ∉ written →
                   db state !! key
                   = db (TransactionHashBaseRound._state tx) !! key)
    as [Hnb Hframe].
  { apply tx_result_inv in Hend
      as [(_ & -> & _)|(_ & _ & hash & data & ->)]; [done|].
    split; [done|]. intros key Hkey. by apply update_frame. }
  destruct (accessors_frame state (TransactionHashBaseRound._state tx)
              written Hframe) as [Hstrict Hsafe].
  split_and!; [done | done | done |].
  apply Hsafe. unfold written. intros Hin.
  repeat (apply elem_of_cons in Hin as [Hin|Hin]; [discriminate Hin|]).
  by apply elem_of_nil in Hin.
Qed.

(** The same for a strategy round and the two keys it writes. *)
Theorem strategy_end_block_frame st state e :
  (StrategyEvaluationRound_.end_block st).2 = inr (Some (state, e)) →
  let written := ["participant_to_strategy"; "most_voted_strategy"] in
  nb_participants state
  = nb_participants (StrategyEvaluationRound_._state st)
  ∧ (∀ key, key ∉ written →
            db state !! key
            = db (StrategyEvaluationRound_._state st) !! key)
  ∧ Forall (λ '(key, accessor),
              key ∉ written →
              accessor state
              = accessor (StrategyEvaluationRound_._state st))
      strict_accessors
  ∧ safe_operation state
    = safe_operation (StrategyEvaluationRound_._state st).
Proof.
  intros Hend written.
  assert (nb_participants state
          = nb_participants (StrategyEvaluationRound_._state st)
          ∧ ∀ key, key ∉ written →
                   db state !! key
                   = db (StrategyEvaluationRound_._state st) !! key)
    as [Hnb Hframe].
  { apply strategy_result_inv in Hend
      as [(_ & -> & _)|(_ & _ & payload & _ & ->)]; [done|].
    split; [done|]. intros key Hkey. by apply update_frame. }
  destruct (accessors_frame state (StrategyEvaluationRound_._state st)
              written Hframe) as [Hstrict Hsafe].
  split_and!; [done | done | done |].
  apply Hsafe. unfold written. intros Hin.
  repeat (apply elem_of_cons in Hin as [Hin|Hin]; [discriminate Hin|]).
  by apply elem_of_nil in Hin.
Qed.

End Frames.

Lemma tx_hash_end_block_frame_witness :
  ∃ state,
    (TransactionHashBaseRound.end_block FlatJson.loads
       Scenario.enter_pool_round).2 = inr (Some (state, DONE))
    ∧ nb_participants state = 4%Z
    ∧ safe_operation state = inr None.
Proof.
  assert (∃ state,
            (TransactionHashBaseRound.end_block FlatJson.loads
               Scenario.enter_pool_round).2 = inr (Some (state, DONE)))
    as [state Hend] by (eexists; vm_compute; reflexivity).
  exists state.
  destruct (tx_hash_end_block_frame FlatJson.loads
              Scenario.enter_pool_round state DONE Hend)
    as (Hnb & _ & _ & Hsafe).
  split_and!; [exact Hend | exact Hnb | exact Hsafe].
Defined.

Lemma strategy_end_block_frame_witness :
  ∃ state,
    (StrategyEvaluationRound_.end_block Scenario.strategy_round).2
    = inr (Some (state, DONE_ENTER))
    ∧ nb_participants state = 4%Z
    ∧ safe_operation state = inr None.
Proof.
  assert (∃ state,
            (StrategyEvaluationRound_.end_block Scenario.strategy_round).2
            = inr (Some (state, DONE_ENTER)))
    as [state Hend] by (eexists; vm_compute; reflexivity).
  exists state.
  destruct (strategy_end_block_frame Scenario.strategy_round state
              DONE_ENTER Hend)
    as (Hnb & _ & _ & Hsafe).
  split_and!; [exact Hend | exact Hnb | exact Hsafe].
Defined.

(** ** Events returned by [end_block] and the edges of the table *)

(** From a non-final round the three events [DONE], [ROUND_TIMEOUT] and
    [NO_MAJORITY] always have an edge; the three [DONE_...] events only
    from the strategy evaluation round; nothing else labels an edge. *)
Theorem next_round_defined (c : RoundCls) (e : Event) :
  is_Some (next_round c e)
  ↔ (c ∉ final_states)
    ∧ (e ∈ [DONE; ROUND_TIMEOUT; NO_MAJORITY]
       ∨ (c = StrategyEvaluationRound
          ∧ e ∈ [DONE_ENTER; DONE_EXIT; DONE_SWAP_BACK])).
Proof.
  rewrite TableFacts.in_final_states.
  unfold next_round. rewrite TableFacts.transition_function_lookup.
  split.
  - intros [c' Hc'].
    destruct c, e; vm_compute in Hc'; try discriminate Hc';
      (split; [intros [?|[?|?]]; discriminate|]);
      first [ solve [ left; repeat first [ apply list_elem_of_here
                                         | apply list_elem_of_further ] ]
            | solve [ right; split; [reflexivity|];
                      repeat first [ apply list_elem_of_here
                                   | apply list_elem_of_further ] ] ].
  - intros [Hfinal Hedge].
    destruct c;
      try (exfalso; apply Hfinal; tauto);
      (destruct e;
       try (vm_compute; eexists; reflexivity);
       exfalso;
       destruct Hedge as [He|[Hc He]];
       try discriminate Hc;
       repeat (apply elem_of_cons in He as [He|He]; [discriminate He|]);
       by apply elem_of_nil in He).
Qed.

(** Of the two events that have a timeout, [ROUND_TIMEOUT] leads from
    every non-final round back to the initial round, and [EXIT] labels
    no edge at all. *)
Theorem timeout_events_edges (e : Event) (c : RoundCls) :
  is_Some (event_to_timeout !! e) →
  next_round c e
  = if decide (e = ROUND_TIMEOUT ∧ c ∉ final_states)
    then Some initial_round_cls else None.
Proof.
  intros [q Hq].
  destruct e; vm_compute in Hq; try discriminate Hq.
  - rewrite decide_False by (intros [? _]; discriminate).
    unfold next_round. rewrite TableFacts.transition_function_lookup.
    by destruct c.
  - unfold next_round. rewrite TableFacts.transition_function_lookup.
    destruct c;
      first [ rewrite decide_True
                by (split; [reflexivity|];
                    rewrite TableFacts.in_final_states;
                    intros [?|[?|?]]; discriminate);
              reflexivity
            | rewrite decide_False
                by (intros [_ Hfinal]; apply Hfinal;
                    rewrite TableFacts.in_final_states; tauto);
              reflexivity ].
Qed.

Lemma timeout_events_edges_witness :
  is_Some (event_to_timeout !! EXIT)
  ∧ next_round SleepRound EXIT = None.
Proof.
  split; [by eexists|].
  apply (timeout_events_edges EXIT SleepRound). by eexists.
Defined.

Section EndBlockEvents.

Context {V : Type} `{!EqDecision V}.
Variable json_loads : string → option (pyobj V).
Implicit Types (tx : TransactionHashBaseRound.t (V:=V)).
Implicit Types (st : StrategyEvaluationRound_.t (V:=V)).

(** How the strategy round chooses its event once the threshold is
    reached. *)
Lemma strategy_event_inv st state e :
  (StrategyEvaluationRound_.end_block st).2 = inr (Some (state, e)) →
  threshold_reached strategy (StrategyEvaluationRound_.collection st)
    (nb_participants (StrategyEvaluationRound_._state st)) = true →
  ∃ payload a,
    most_voted_payload strategy (StrategyEvaluationRound_.collection st)
    = inr payload
    ∧ payload !! "action" = Some a
    ∧ ((a = PStr "wait" ∧ e = DONE)
       ∨ (a = PStr "enter" ∧ e = DONE_ENTER)
       ∨ (a = PStr "exit" ∧ e = DONE_EXIT)
       ∨ (a = PStr "swap_back" ∧ e = DONE_SWAP_BACK)
       ∨ ((a ∉ [PStr "wait"; PStr "enter"; PStr "exit"; PStr "swap_back"])
          ∧ e = RESET_TIMEOUT)).
Proof.
  unfold StrategyEvaluationRound_.end_block, StrategyEvaluationRound_.action,
    _return_no_majority_event, bind, this, try, returns, raise, getitem;
    simpl.
  intros Hend Hreached. rewrite Hreached in Hend.
  destruct (most_voted_payload _ _) as [err|payload]; simpl in *;
    [discriminate Hend|].
  destruct (payload !! "action") as [a|] eqn:Ha; simpl in *;
    [|discriminate Hend].
  exists payload, a. split; [done|]. split; [done|].
  destruct a as [s|v]; simpl in *.
  - repeat (case_bool_decide; simpl in *; simplify_eq; [tauto|]).
    do 4 right. split; [|done].
    intros Hin.
    repeat (apply elem_of_cons in Hin as [Hin|Hin]; [congruence|]).
    by apply elem_of_nil in Hin.
  - simplify_eq. do 4 right. split; [|done].
    intros Hin.
    repeat (apply elem_of_cons in Hin as [Hin|Hin]; [discriminate Hin|]).
    by apply elem_of_nil in Hin.
Qed.

(** Every event a transaction hash round returns has an edge in the
    table, for each of the three subclasses: [DONE] leads to a final
    round and [NO_MAJORITY] back to the initial round. *)
Theorem tx_hash_end_block_event_edge tx state e :
  TransactionHashBaseRound.cls tx
  ∈ [ EnterPoolTransactionHashRound; ExitPoolTransactionHashRound;
      SwapBackTransactionHashRound ] →
  (TransactionHashBaseRound.end_block json_loads tx).2
  = inr (Some (state, e)) →
  ∃ c', next_round (TransactionHashBaseRound.cls tx) e = Some c'
        ∧ (if threshold_reached tx_hash
                (TransactionHashBaseRound.collection tx)
                (nb_participants (TransactionHashBaseRound._state tx))
           then e = DONE ∧ c' ∈ final_states
           else e = NO_MAJORITY ∧ c' = initial_round_cls).
Proof.
  intros Hcls Hend.
  apply tx_result_inv in Hend as [(-> & _ & ->)|(-> & -> & _)].
  - exists StrategyEvaluationRound. split; [|done].
    repeat (apply elem_of_cons in Hcls as [->|Hcls]; [reflexivity|]).
    by apply elem_of_nil in Hcls.
  - repeat (apply elem_of_cons in Hcls as [->|Hcls];
            [eexists; split; [reflexivity|]; split; [done|];
             apply TableFacts.in_final_states; tauto|]).
    by apply elem_of_nil in Hcls.
Qed.

(** A strategy round returns an event without an edge in the table
    exactly when it returns [RESET_TIMEOUT], which is the case exactly
    when the threshold is reached and the agreed action is none of the
    four [StrategyType] values. *)
Theorem strategy_end_block_event_edge st state e :
  (StrategyEvaluationRound_.end_block st).2 = inr (Some (state, e)) →
  (next_round StrategyEvaluationRound e = None ↔ e = RESET_TIMEOUT)
  ∧ (e = RESET_TIMEOUT
     ↔ threshold_reached strategy (StrategyEvaluationRound_.collection st)
         (nb_participants (StrategyEvaluationRound_._state st)) = true
       ∧ ∃ payload a,
           most_voted_payload strategy
             (StrategyEvaluationRound_.collection st) = inr payload
           ∧ payload !! "action" = Some a
           ∧ a ∉ PStr <$> (StrategyType.value
                             <$> [ StrategyType.WAIT; StrategyType.ENTER;
                                   StrategyType.EXIT;
                                   StrategyType.SWAP_BACK ])).
Proof.
  intros Hend. split.
  - apply strategy_result_inv in Hend as [(-> & _)|(He & _)].
    + split; intros Heq; [vm_compute in Heq|]; discriminate Heq.
    + repeat (apply elem_of_cons in He as [->|He];
              [split; intros Heq; [vm_compute in Heq|];
               first [discriminate Heq | reflexivity]|]).
      by apply elem_of_nil in He.
  - split.
    + intros ->.
      pose proof Hend as Hinv.
      apply strategy_result_inv in Hinv as [(Hne & _)|(_ & Hreached & _)];
        [discriminate Hne|].
      split; [done|].
      destruct (strategy_event_inv st state RESET_TIMEOUT Hend Hreached)
        as (payload & a & Hpayload & Ha & Hcase).
      exists payload, a. split; [done|]. split; [done|].
      destruct Hcase as [[_ He]|[[_ He]|[[_ He]|[[_ He]|[Hnot _]]]]];
        try discriminate He.
      exact Hnot.
    + intros (Hreached & payload & a & Hpayload & Ha & Hnot).
      destruct (strategy_event_inv st state e Hend Hreached)
        as (payload' & a' & Hpayload' & Ha' & Hcase).
      assert (a' = a) as -> by congruence.
      destruct Hcase as [[-> _]|[[-> _]|[[-> _]|[[-> _]|[_ He]]]]];
        [exfalso; apply Hnot; simpl;
         repeat first [ apply list_elem_of_here
                      | apply list_elem_of_further ].. | exact He].
Qed.



End EndBlockEvents.

Lemma tx_hash_end_block_event_edge_witness :
  ∃ state c',
    (TransactionHashBaseRound.end_block FlatJson.loads
       Scenario.enter_pool_round).2 = inr (Some (state, DONE))
    ∧ next_round EnterPoolTransactionHashRound DONE = Some c'.
Proof.
  assert (∃ state,
            (TransactionHashBaseRound.end_block FlatJson.loads
               Scenario.enter_pool_round).2 = inr (Some (state, DONE)))
    as [state Hend] by (eexists; vm_compute; reflexivity).
  destruct (tx_hash_end_block_event_edge FlatJson.loads
              Scenario.enter_pool_round state DONE)
    as (c' & Hnext & _).
  - apply list_elem_of_here.
  - exact Hend.
  - exists state, c'. split; [exact Hend | exact Hnext].
Defined.

Lemma strategy_end_block_event_edge_witness :
  ∃ state,
    (StrategyEvaluationRound_.end_block
       (Scenario.strategy_round_with (Scenario.strategy_of "hold"))).2
    = inr (Some (state, RESET_TIMEOUT))
    ∧ (next_round StrategyEvaluationRound RESET_TIMEOUT = None
       ↔ RESET_TIMEOUT = RESET_TIMEOUT).
Proof.
  assert (∃ state,
            (StrategyEvaluationRound_.end_block
               (Scenario.strategy_round_with (Scenario.strategy_of "hold"))).2
            = inr (Some (state, RESET_TIMEOUT)))
    as [state Hend] by (eexists; vm_compute; reflexivity).
  exists state. split; [exact Hend|].
  exact (proj1 (strategy_end_block_event_edge
                  (Scenario.strategy_round_with (Scenario.strategy_of "hold"))
                  state RESET_TIMEOUT Hend)).
Defined.



(** ** Deciding again on the returned state *)

Section Idempotence.

Context {V : Type} `{!EqDecision V}.
Variable json_loads : string → option (pyobj V).
Implicit Types (tx : TransactionHashBaseRound.t (V:=V)).
Implicit Types (st : StrategyEvaluationRound_.t (V:=V)).

(** [update] overrides the database with its keyword arguments, a later
    argument winning over an earlier one with the same key. *)
Lemma update_union (kwargs : list (string * dbval V)) (state : PeriodState V) :
  db (update kwargs state) = list_to_map (reverse kwargs) ∪ db state.
Proof.
  unfold update; simpl. generalize (db state).
  induction kwargs as [|[k x] kwargs IH]; intros m; simpl.
  - by rewrite (left_id_L ∅ (∪)).
  - rewrite IH, reverse_cons, list_to_map_app; simpl.
    rewrite <- (assoc_L (∪)). f_equal.
    by rewrite insert_union_singleton_l, insert_empty.
Qed.

Lemma update_idemp (kwargs : list (string * dbval V)) (state : PeriodState V) :
  update kwargs (update kwargs state) = update kwargs state.
Proof.
  pose proof (update_union kwargs (update kwargs state)) as Htwice.
  rewrite (update_union kwargs state) in Htwice.
  rewrite (assoc_L (∪)), (idemp_L (∪)) in Htwice.
  rewrite <- (update_union kwargs state) in Htwice.
  unfold update in *; simpl in *. by f_equal.
Qed.

(** A transaction hash round that is given the state it has just
    returned decides the same again: the returned state is a fixed point
    of the decision. *)
Theorem tx_hash_end_block_fixed_point tx state e :
  (TransactionHashBaseRound.end_block json_loads tx).2
  = inr (Some (state, e)) →
  (TransactionHashBaseRound.end_block json_loads
     {| TransactionHashBaseRound.cls := TransactionHashBaseRound.cls tx;
        TransactionHashBaseRound._state := state;
        TransactionHashBaseRound.collection :=
          TransactionHashBaseRound.collection tx |}).2
  = inr (Some (state, e)).
Proof.
  unfold TransactionHashBaseRound.end_block, TransactionHashBaseRound.loads,
    _return_no_majority_event, bind, this, try, returns, raise, getitem;
    simpl.
  destruct (threshold_reached _ _ (nb_participants _)) eqn:Hreached.
  - intros Hend.
    repeat (case_match; simpl in *; simplify_eq).
    by rewrite update_idemp.
  - destruct (is_majority_possible _ _ (nb_participants _)) eqn:Hpossible;
      simpl; intros Hend; simplify_eq.
    by rewrite Hreached, Hpossible.
Qed.

(** The same for a strategy round. *)
Theorem strategy_end_block_fixed_point st state e :
  (StrategyEvaluationRound_.end_block st).2 = inr (Some (state, e)) →
  (StrategyEvaluationRound_.end_block
     {| StrategyEvaluationRound_._state := state;
        StrategyEvaluationRound_.collection :=
          StrategyEvaluationRound_.collection st |}).2
  = inr (Some (state, e)).
Proof.
  unfold StrategyEvaluationRound_.end_block, StrategyEvaluationRound_.action,
    _return_no_majority_event, bind, this, try, returns, raise, getitem;
    simpl.
  destruct (threshold_reached _ _ (nb_participants _)) eqn:Hreached.
  - intros Hend.
    destruct (most_voted_payload _ _) as [err|payload]; simpl in *;
      [discriminate Hend|].
    destruct (payload !! "action") as [a|] eqn:Ha; simpl in *;
      [|discriminate Hend].
    repeat match type of Hend with
           | context [if ?b then _ else _] =>
               destruct b eqn:?; simpl in Hend
           end;
      simplify_eq; simpl; rewrite Hreached; simpl;
      repeat match goal with
             | H : eq_str _ _ = _ |- _ => rewrite H; simpl
             end;
      by rewrite update_idemp.
  - destruct (is_majority_possible _ _ (nb_participants _)) eqn:Hpossible;
      simpl; intros Hend; simplify_eq.
    by rewrite Hreached, Hpossible.
Qed.

End Idempotence.

Lemma tx_hash_end_block_fixed_point_witness :
  ∃ state,
    (TransactionHashBaseRound.end_block FlatJson.loads
       Scenario.enter_pool_round).2 = inr (Some (state, DONE))
    ∧ (TransactionHashBaseRound.end_block FlatJson.loads
         {| TransactionHashBaseRound.cls := EnterPoolTransactionHashRound;
            TransactionHashBaseRound._state := state;
            TransactionHashBaseRound.collection :=
              Scenario.tx_collection Scenario.agents |}).2
      = inr (Some (state, DONE)).
Proof.
  assert (∃ state,
            (TransactionHashBaseRound.end_block FlatJson.loads
               Scenario.enter_pool_round).2 = inr (Some (state, DONE)))
    as [state Hend] by (eexists; vm_compute; reflexivity).
  exists state. split; [exact Hend|].
  exact (tx_hash_end_block_fixed_point FlatJson.loads
           Scenario.enter_pool_round state DONE Hend).
Defined.

Lemma strategy_end_block_fixed_point_witness :
  ∃ state,
    (StrategyEvaluationRound_.end_block Scenario.split_round).2
    = inr (Some (state, NO_MAJORITY))
    ∧ (StrategyEvaluationRound_.end_block
         {| StrategyEvaluationRound_._state := state;
            StrategyEvaluationRound_.collection :=
              StrategyEvaluationRound_.collection Scenario.split_round |}).2
      = inr (Some (state, NO_MAJORITY)).
Proof.
  assert (∃ state,
            (StrategyEvaluationRound_.end_block Scenario.split_round).2
            = inr (Some (state, NO_MAJORITY)))
    as [state Hend] by (eexists; vm_compute; reflexivity).
  exists state. split; [exact Hend|].
  exact (strategy_end_block_fixed_point Scenario.split_round state
           NO_MAJORITY Hend).
Defined.
